(** * The parameter store of xLearn: [Model] (src/data/model_parameters.cc)

    A shallow embedding of the [Model] class: the computation of the number
    of parameters, the allocation and initialisation of the parameter
    buffer for the three score functions ("linear", "fm", "ffm"), and the
    binary checkpoint written by [Serialize] and read by [Deserialize].

    Integers of type [index_t] are kept as [Z] with the 32-bit wrap-around
    written out; a [real_t] is kept as the four bytes of its object
    representation; the buffer is a list of slots, a slot being [None] as
    long as nothing has been stored in the memory that malloc returned. *)

From Stdlib Require Import ZArith List String Lia Bool.
From Stdlib Require SpecFloat.
From coqutil Require Import Byte Word.LittleEndianList.
From stdpp Require Import base list strings gmap.

Local Open Scope Z_scope.

(** ** Machine integers *)

(** Modelled from the spec: [index_t] is declared in src/base/common.h,
    which is not part of the sources at hand. The spec calls the counts
    non-negative fixed-width integers; xLearn declares [index_t] as an
    unsigned 32-bit integer. *)
Definition index_bits : Z := 32.

Definition index_modulus : Z := 2 ^ index_bits.

(** The value an [index_t] holds after an arithmetic result [z]. *)
Definition to_index (z : Z) : Z := z mod index_modulus.

Definition index_mul (a b : Z) : Z := to_index (a * b).
Definition index_add (a b : Z) : Z := to_index (a + b).

(** The values an [index_t] can hold. *)
Definition is_index (z : Z) : Prop := 0 <= z < index_modulus.

(** Sizes in bytes on the platform the SSE code is written for. *)
Definition sizeof_index_t : nat := 4.
Definition sizeof_real_t : nat := 4.
Definition sizeof_size_t : nat := 8.

(** Modelled from the spec: [kAlign] and [kAlignByte] are declared in
    src/data/model_parameters.h, which is not part of the sources at hand.
    [kAlign] is the spec's ALIGN_WIDTH, 4 lanes of single precision; the
    source comment gives 16 as the byte alignment for SSE. *)
Definition kAlign : Z := 4.
Definition kAlignByte : Z := 16.

(** ** Real numbers as stored *)

(** A [real_t] is a single-precision float; the store only ever writes the
    constants 0 and 1.0 and products computed by the C++ runtime, and the
    checkpoint copies its bytes verbatim, so a value is kept as the four
    bytes it occupies (least significant first). *)
Record real_t : Type := Real { byte0 : byte; byte1 : byte; byte2 : byte; byte3 : byte }.

(** [0.0f] is the pattern 0x00000000 and [1.0f] is 0x3F800000. *)
Definition real_zero : real_t := Real Byte.x00 Byte.x00 Byte.x00 Byte.x00.
Definition real_one : real_t := Real Byte.x00 Byte.x00 Byte.x80 Byte.x3f.

Definition real_bytes (r : real_t) : list byte :=
  [byte0 r; byte1 r; byte2 r; byte3 r].

Definition real_of_bytes (bs : list byte) : option real_t :=
  match bs with
  | [a; b; c; d] => Some (Real a b c d)
  | _ => None
  end.

Definition real_of_bits (z : Z) : real_t :=
  Real (byte.of_Z z) (byte.of_Z (Z.shiftr z 8))
       (byte.of_Z (Z.shiftr z 16)) (byte.of_Z (Z.shiftr z 24)).

Definition real_bits (r : real_t) : Z := le_combine (real_bytes r).

(** ** The C++ runtime the initialiser draws from

    [std::default_random_engine], [std::uniform_real_distribution] and the
    floating-point operations are not code of the repository; they are
    taken as a parameter of the model. *)
Record Runtime : Type := {
  engine : Type;
  (** [std::default_random_engine generator;], default-constructed *)
  default_engine : engine;
  (** [dis(generator)] for [uniform_real_distribution<real_t> dis(0.0, 1.0)] *)
  dis : engine -> real_t * engine;
  (** [1.0f / sqrt(num_K_)], converted to [real_t] *)
  inv_sqrt : Z -> real_t;
  (** the product of two [real_t] *)
  real_mul : real_t -> real_t -> real_t
}.

(** The engine after [n] draws and the value of draw number [n]. *)
Fixpoint engine_after (rt : Runtime) (n : nat) (g : engine rt) : engine rt :=
  match n with
  | O => g
  | S n' => engine_after rt n' (snd (dis rt g))
  end.

Definition nth_draw (rt : Runtime) (n : nat) : real_t :=
  fst (dis rt (engine_after rt n (default_engine rt))).

(** ** Failures *)

Inductive error : Type :=
| CheckFailed (cond : string)   (* a CHECK macro aborts the process *)
| LogFatal (msg : string)       (* LOG(FATAL) aborts the process *)
| OpenFailed                    (* OpenFileOrDie *)
| ReadFailed                    (* fewer bytes in the file than asked for *)
| OutOfBounds                   (* a store or load outside the allocated buffer *)
| Indeterminate                 (* a read of memory nothing was stored in *)
| Exited (code : Z)             (* exit(code) *)
| OutOfFuel.

Inductive outcome (A : Type) : Type :=
| Ok (a : A)
| Err (e : error).
Arguments Ok {A} a.
Arguments Err {A} e.

Definition obind {A B : Type} (x : outcome A) (f : A -> outcome B) : outcome B :=
  match x with
  | Ok a => f a
  | Err e => Err e
  end.

Notation "'do*' x <- c1 ; c2" := (obind c1 (fun x => c2))
  (at level 10, x pattern, c1 at level 100, c2 at level 200).

(** ** The world around the object: the heap calls made and the disk *)

Inductive alloc_call : Type :=
| Malloc (bytes : Z)
| PosixMemalign (alignment bytes : Z).

Record World : Type := {
  heap_log : list alloc_call;
  disk : gmap string (list byte)
}.

(** A method runs in a world, fails or returns, and leaves a world. *)
Definition M (A : Type) : Type := World -> outcome A * World.

Definition ret {A : Type} (a : A) : M A := fun w => (Ok a, w).
Definition abort {A : Type} (e : error) : M A := fun w => (Err e, w).
Definition bind {A B : Type} (x : M A) (f : A -> M B) : M B :=
  fun w => match x w with
           | (Ok a, w') => f a w'
           | (Err e, w') => (Err e, w')
           end.
Definition lift {A : Type} (x : outcome A) : M A := fun w => (x, w).

Notation "'let*' x := c1 'in' c2" := (bind c1 (fun x => c2))
  (at level 10, x pattern, c1 at level 100, c2 at level 200).
Notation "c1 ;; c2" := (bind c1 (fun _ => c2))
  (at level 100, right associativity).

Definition CHECK (b : bool) (cond : string) : M unit :=
  if b then ret tt else abort (CheckFailed cond).

Definition LOG_FATAL {A : Type} (msg : string) : M A := abort (LogFatal msg).

(** ** The buffer *)

Abbreviation slot := (option real_t).
Abbreviation buffer := (list (option real_t)).

(** The world after one more call to the allocator. *)
Definition allocated (call : alloc_call) (w : World) : World :=
  {| heap_log := heap_log w ++ [call]; disk := disk w |}.

(** malloc and posix_memalign: the call is recorded and a block of slots
    nothing has been stored in is returned. The allocator is taken to grant
    every request: a null result, through which the source would store
    unchecked, is outside the model. *)
Definition malloc (slots : Z) : M buffer :=
  fun w => (Ok (replicate (Z.to_nat slots) None),
            allocated (Malloc (slots * Z.of_nat sizeof_real_t)) w).

Definition posix_memalign (alignment slots : Z) : M buffer :=
  fun w => (Ok (replicate (Z.to_nat slots) None),
            allocated (PosixMemalign alignment (slots * Z.of_nat sizeof_real_t)) w).

(** [p[i] = v] for a pointer [p] at the start of the buffer. *)
Definition store (buf : buffer) (i : Z) (v : real_t) : outcome buffer :=
  if (0 <=? i) && (i <? Z.of_nat (length buf))
  then Ok (<[Z.to_nat i := Some v]> buf)
  else Err OutOfBounds.

(** A C loop: [cond] is tested, [body] (with the increment) runs, at most
    [fuel] times. *)
Fixpoint for_ {S : Type} (fuel : nat) (cond : S -> bool)
    (body : S -> outcome S) (s : S) : outcome S :=
  match fuel with
  | O => Err OutOfFuel
  | Datatypes.S fuel' =>
      if cond s then do* s' <- body s; for_ fuel' cond body s' else Ok s
  end.

Definition fuel_for (bound : Z) : nat := S (Z.to_nat bound).

(** ** The object *)

Record Model : Type := {
  score_func_ : string;
  loss_func_ : string;
  num_feat_ : Z;
  num_field_ : Z;
  num_K_ : Z;
  param_num_w_ : Z;
  param_w_ : buffer
}.

Definition with_param_num_w_ (n : Z) (m : Model) : Model :=
  {| score_func_ := score_func_ m; loss_func_ := loss_func_ m;
     num_feat_ := num_feat_ m; num_field_ := num_field_ m; num_K_ := num_K_ m;
     param_num_w_ := n; param_w_ := param_w_ m |}.

Definition with_param_w_ (b : buffer) (m : Model) : Model :=
  {| score_func_ := score_func_ m; loss_func_ := loss_func_ m;
     num_feat_ := num_feat_ m; num_field_ := num_field_ m; num_K_ := num_K_ m;
     param_num_w_ := param_num_w_ m; param_w_ := b |}.

(** Modelled from the spec: [roundUpToAlignment(factors, ALIGN_WIDTH)], the
    factor count rounded up to the next multiple of the alignment width. *)
Definition round_up_to_alignment (factors width : Z) : Z :=
  (factors + width - 1) / width * width.

(** Modelled from the spec: [Model::get_aligned_k] is defined in
    src/data/model_parameters.h, which is not part of the sources at hand;
    the spec gives paddedFactors = roundUpToAlignment(factors, ALIGN_WIDTH).
    The result is an [index_t]. *)
Definition get_aligned_k (m : Model) : Z :=
  to_index (round_up_to_alignment (num_K_ m) kAlign).

(** ** Initialize_w: allocation and initial values *)

(** The loop of the "linear" branch:
    [for (index_t i = 0; i < param_num_w_; i += 2)]. *)
Definition linear_body (st : Z * buffer) : outcome (Z * buffer) :=
  let '(i, w) := st in
  do* w1 <- store w i real_zero;
  do* w2 <- store w1 (index_add i 1) real_one;
  Ok (index_add i 2, w2).

Definition linear_loop (n : Z) (w : buffer) : outcome buffer :=
  do* st <- for_ (fuel_for n) (fun st => fst st <? n) linear_body (0, w);
  Ok (snd st).

(** The loop of the "fm" branch; the state also carries the generator. *)
Definition fm_body (rt : Runtime) (K : Z) (st : Z * engine rt * buffer)
    : outcome (Z * engine rt * buffer) :=
  let '(i, g, w) := st in
  let coef := inv_sqrt rt K in
  let '(x, g') := dis rt g in
  do* w1 <- store w i (real_mul rt coef x);
  do* w2 <- store w1 (index_add i 1) real_one;
  Ok (index_add i 2, g', w2).

Definition fm_loop (rt : Runtime) (K n : Z) (g : engine rt) (w : buffer)
    : outcome buffer :=
  do* st <- for_ (fuel_for n) (fun st => fst (fst st) <? n) (fm_body rt K) (0, g, w);
  Ok (snd st).

(** The "ffm" branch walks the buffer with the pointer [w], kept here as
    its offset from [param_w_]. *)
Record cursor (rt : Runtime) : Type := {
  w_off : Z;
  gen : engine rt;
  mem : buffer
}.
Arguments w_off {rt} c.
Arguments gen {rt} c.
Arguments mem {rt} c.

(** [(d < num_K_) ? coef * dis(generator) : 0.0], with the generator it
    leaves. *)
Definition ffm_weight (rt : Runtime) (K : Z) (coef : real_t) (d : Z)
    (g : engine rt) : real_t * engine rt :=
  if d <? K
  then let '(r, g') := dis rt g in (real_mul rt coef r, g')
  else (real_zero, g).

(** [for (index_t s = 0; s < kAlign; s++, w++, d++)] *)
Definition ffm_s_body (rt : Runtime) (K : Z) (coef : real_t)
    (st : Z * Z * cursor rt) : outcome (Z * Z * cursor rt) :=
  let '(s, d, c) := st in
  let '(x, g') := ffm_weight rt K coef d (gen c) in
  do* b1 <- store (mem c) (w_off c) x;
  do* b2 <- store b1 (w_off c + kAlign) real_one;
  Ok (index_add s 1, index_add d 1,
      {| w_off := w_off c + 1; gen := g'; mem := b2 |}).

(** [for (index_t d = 0; d < k_aligned; ) { ...; w += kAlign; }] *)
Definition ffm_d_body (rt : Runtime) (K : Z) (coef : real_t)
    (st : Z * cursor rt) : outcome (Z * cursor rt) :=
  let '(d, c) := st in
  do* st' <- for_ (fuel_for kAlign) (fun st => fst (fst st) <? kAlign)
                  (ffm_s_body rt K coef) (0, d, c);
  let '(_, d', c') := st' in
  Ok (d', {| w_off := w_off c' + kAlign; gen := gen c'; mem := mem c' |}).

(** [for (index_t f = 0; f < num_field_; ++f)] *)
Definition ffm_f_body (rt : Runtime) (K k_aligned : Z) (coef : real_t)
    (st : Z * cursor rt) : outcome (Z * cursor rt) :=
  let '(f, c) := st in
  do* st' <- for_ (fuel_for k_aligned) (fun st => fst st <? k_aligned)
                  (ffm_d_body rt K coef) (0, c);
  Ok (index_add f 1, snd st').

(** [for (index_t j = 0; j < num_feat_; ++j)] *)
Definition ffm_j_body (rt : Runtime) (K k_aligned num_field : Z) (coef : real_t)
    (st : Z * cursor rt) : outcome (Z * cursor rt) :=
  let '(j, c) := st in
  do* st' <- for_ (fuel_for num_field) (fun st => fst st <? num_field)
                  (ffm_f_body rt K k_aligned coef) (0, c);
  Ok (index_add j 1, snd st').

Definition ffm_loop (rt : Runtime) (m : Model) (g : engine rt) (w : buffer)
    : outcome buffer :=
  let k_aligned := get_aligned_k m in
  let coef := inv_sqrt rt (num_K_ m) in
  do* st <- for_ (fuel_for (num_feat_ m)) (fun st => fst st <? num_feat_ m)
                 (ffm_j_body rt (num_K_ m) k_aligned (num_field_ m) coef)
                 (0, {| w_off := 0; gen := g; mem := w |});
  Ok (mem (snd st)).

Definition unknown_score (score : string) : string :=
  ("Unknow score function: " ++ score)%string.

(** [Model::Initialize_w]. malloc does not throw, so the handler of
    [std::bad_alloc] is never entered. *)
Definition Initialize_w (rt : Runtime) (set_value : bool) (m : Model) : M Model :=
  let* w :=
    (if (score_func_ m =? "linear")%string || (score_func_ m =? "fm")%string
     then malloc (param_num_w_ m)
     else if (score_func_ m =? "ffm")%string
     then posix_memalign kAlignByte (param_num_w_ m)
     else LOG_FATAL (unknown_score (score_func_ m))) in
  let generator := default_engine rt in
  if set_value then
    if (score_func_ m =? "linear")%string then
      let* w' := lift (linear_loop (param_num_w_ m) w) in
      ret (with_param_w_ w' m)
    else if (score_func_ m =? "fm")%string then
      let* w' := lift (fm_loop rt (num_K_ m) (param_num_w_ m) generator w) in
      ret (with_param_w_ w' m)
    else if (score_func_ m =? "ffm")%string then
      let* w' := lift (ffm_loop rt m generator w) in
      ret (with_param_w_ w' m)
    else LOG_FATAL (unknown_score (score_func_ m))
  else ret (with_param_w_ w m).

(** ** Initialize: the fresh model *)

(** The number of parameters, as the three branches compute it. *)
Definition count_parameters (score_func : string) (num_feature k_aligned num_field num_K : Z)
    : option Z :=
  if (score_func =? "linear")%string then
    Some (index_mul num_feature 2)
  else if (score_func =? "fm")%string then
    Some (index_mul (index_mul num_feature num_K) 2)
  else if (score_func =? "ffm")%string then
    Some (index_mul (index_mul (index_mul num_feature k_aligned) num_field) 2)
  else None.

Definition Initialize (rt : Runtime) (score_func loss_func : string)
    (num_feature num_field num_K : Z) (this : Model) : M Model :=
  CHECK (negb (score_func =? "")%string) "!score_func.empty()" ;;
  CHECK (negb (loss_func =? "")%string) "!loss_func.empty()" ;;
  CHECK (0 <? num_feature) "num_feature > 0" ;;
  CHECK (0 <=? num_field) "num_field >= 0" ;;
  CHECK (0 <=? num_K) "num_K >= 0" ;;
  let m := {| score_func_ := score_func; loss_func_ := loss_func;
              num_feat_ := num_feature; num_field_ := num_field; num_K_ := num_K;
              param_num_w_ := param_num_w_ this; param_w_ := param_w_ this |} in
  let* m :=
    match count_parameters score_func num_feature (get_aligned_k m) num_field num_K with
    | Some n => ret (with_param_num_w_ n m)
    | None => LOG_FATAL (unknown_score score_func)
    end in
  Initialize_w rt true m.

(** ** Files

    Modelled from the spec: [OpenFileOrDie], [WriteDataToDisk],
    [ReadDataFromDisk], [WriteStringToFile], [ReadStringFromFile] and
    [Close] are defined in src/base/file_util.h, which is not part of the
    sources at hand. From the spec: a label is written as its length
    followed by its bytes, an integer as a fixed-width value, everything in
    the native width and byte order; a file that cannot be opened or a read
    that comes short is a failure. The disk of the model is a map from
    names to contents: it has no directory and no permission that could
    refuse a name, so mode "w" creates or truncates the file and never
    fails, and mode "r" fails on a name the disk does not hold. Two names
    are one file only when they are the same string. Bytes written to an
    open file always reach the disk, and the modes "w" and "r" pass every
    byte unchanged, as they do on a POSIX system. *)
Record FILE : Type := {
  path : string;
  position : nat
}.

Definition OpenFileOrDie (filename mode : string) : M (option FILE) :=
  fun w =>
    if (mode =? "w")%string then
      (Ok (Some {| path := filename; position := 0 |}),
       {| heap_log := heap_log w; disk := <[filename := []]> (disk w) |})
    else
      match disk w !! filename with
      | Some _ => (Ok (Some {| path := filename; position := 0 |}), w)
      | None => (Err OpenFailed, w)
      end.

Definition Close (file : FILE) : M unit := ret tt.

Definition WriteDataToDisk (file : FILE) (data : list byte) : M unit :=
  fun w =>
    match disk w !! path file with
    | Some old =>
        (Ok tt, {| heap_log := heap_log w;
                   disk := <[path file := old ++ data]> (disk w) |})
    | None => (Err OpenFailed, w)
    end.

Definition ReadDataFromDisk (file : FILE) (len : nat) : M (list byte * FILE) :=
  fun w =>
    match disk w !! path file with
    | Some content =>
        let rest := drop (position file) content in
        if (len <=? length rest)%nat
        then (Ok (take len rest,
                  {| path := path file; position := (position file + len)%nat |}), w)
        else (Err ReadFailed, w)
    | None => (Err OpenFailed, w)
    end.

Definition size_t_bytes (n : nat) : list byte := le_split sizeof_size_t (Z.of_nat n).
Definition index_t_bytes (z : Z) : list byte := le_split sizeof_index_t z.

Definition WriteStringToFile (file : FILE) (str : string) : M unit :=
  let data := list_byte_of_string str in
  WriteDataToDisk file (size_t_bytes (length data)) ;;
  WriteDataToDisk file data.

Definition ReadStringFromFile (file : FILE) : M (string * FILE) :=
  let* (len, file) := ReadDataFromDisk file sizeof_size_t in
  let* (data, file) := ReadDataFromDisk file (Z.to_nat (le_combine len)) in
  ret (string_of_list_byte data, file).

Definition read_index_t (file : FILE) : M (Z * FILE) :=
  let* (data, file) := ReadDataFromDisk file sizeof_index_t in
  ret (le_combine data, file).

(** The bytes of the first [n] values behind [param_w_]. *)
Fixpoint buffer_bytes (n : nat) (w : buffer) : outcome (list byte) :=
  match n with
  | O => Ok []
  | S n' =>
      match w with
      | [] => Err OutOfBounds
      | None :: _ => Err Indeterminate
      | Some r :: w' => do* bs <- buffer_bytes n' w'; Ok (real_bytes r ++ bs)
      end
  end.

(** [n] values copied from the bytes read into the memory behind [param_w_]. *)
Fixpoint buffer_of_bytes (n : nat) (bs : list byte) : buffer :=
  match n with
  | O => []
  | S n' => real_of_bytes (take sizeof_real_t bs) :: buffer_of_bytes n' (drop sizeof_real_t bs)
  end.

(** ** The checkpoint *)

Definition serialize_w (file : FILE) (this : Model) : M unit :=
  WriteDataToDisk file (index_t_bytes (param_num_w_ this)) ;;
  let* data := lift (buffer_bytes (Z.to_nat (param_num_w_ this)) (param_w_ this)) in
  WriteDataToDisk file data.

Definition Serialize (filename : string) (this : Model) : M unit :=
  CHECK (negb (filename =? "")%string) "filename.empty() != true" ;;
  let* file := OpenFileOrDie filename "w" in
  match file with
  | None => abort OpenFailed
  | Some file =>
      WriteStringToFile file (score_func_ this) ;;
      WriteStringToFile file (loss_func_ this) ;;
      WriteDataToDisk file (index_t_bytes (num_feat_ this)) ;;
      WriteDataToDisk file (index_t_bytes (num_field_ this)) ;;
      WriteDataToDisk file (index_t_bytes (num_K_ this)) ;;
      serialize_w file this ;;
      Close file
  end.

Definition deserialize_w (rt : Runtime) (file : FILE) (this : Model) : M (Model * FILE) :=
  let* (n, file) := read_index_t file in
  let* m := Initialize_w rt false (with_param_num_w_ n this) in
  let* (data, file) :=
    ReadDataFromDisk file (sizeof_real_t * Z.to_nat (param_num_w_ m)) in
  ret (with_param_w_ (buffer_of_bytes (Z.to_nat (param_num_w_ m)) data) m, file).

Definition Deserialize (rt : Runtime) (filename : string) (this : Model)
    : M (bool * Model) :=
  CHECK (negb (filename =? "")%string) "filename.empty() != true" ;;
  let* file := OpenFileOrDie filename "r" in
  match file with
  | None => ret (false, this)
  | Some file =>
      let* (score, file) := ReadStringFromFile file in
      let* (loss, file) := ReadStringFromFile file in
      let* (num_feat, file) := read_index_t file in
      let* (num_field, file) := read_index_t file in
      let* (num_K, file) := read_index_t file in
      let m := {| score_func_ := score; loss_func_ := loss;
                  num_feat_ := num_feat; num_field_ := num_field; num_K_ := num_K;
                  param_num_w_ := param_num_w_ this; param_w_ := param_w_ this |} in
      let* (m, file) := deserialize_w rt file m in
      Close file ;;
      ret (true, m)
  end.

(** [Model::Model(const std::string& filename)]; [this] is the object
    before the constructor runs. *)
Definition Model_from_file (rt : Runtime) (filename : string) (this : Model) : M Model :=
  CHECK (negb (filename =? "")%string) "filename.empty() != true" ;;
  let* (loaded, m) := Deserialize rt filename this in
  if loaded : bool then ret m else abort (Exited 0).

(** ** An instance of the runtime

    Used to run the model on concrete inputs: single-precision values
    computed with the IEEE 754 operations of the standard library's
    [SpecFloat], and the generator GNU libstdc++ takes as
    [std::default_random_engine], the minimal standard generator
    (multiplier 16807, modulus 2^31 - 1, seed 1), one output scaled into
    the unit interval, 1 excluded, for each draw. *)
Module Gnu.

Definition b32_of_bits (z : Z) : SpecFloat.spec_float :=
  let s := Z.testbit z 31 in
  let e := Z.land (Z.shiftr z 23) 255 in
  let m := Z.land z (2 ^ 23 - 1) in
  if e =? 0 then
    if m =? 0 then SpecFloat.S754_zero s
    else SpecFloat.S754_finite s (Z.to_pos m) (-149)
  else if e =? 255 then
    if m =? 0 then SpecFloat.S754_infinity s else SpecFloat.S754_nan
  else SpecFloat.S754_finite s (Z.to_pos (m + 2 ^ 23)) (e - 150).

Definition bits_of_b32 (x : SpecFloat.spec_float) : Z :=
  let sign (s : bool) := if s then 2 ^ 31 else 0 in
  match x with
  | SpecFloat.S754_zero s => sign s
  | SpecFloat.S754_infinity s => sign s + 255 * 2 ^ 23
  | SpecFloat.S754_nan => 255 * 2 ^ 23 + 2 ^ 22
  | SpecFloat.S754_finite s m e =>
      if Z.pos m <? 2 ^ 23 then sign s + Z.pos m
      else sign s + (e + 150) * 2 ^ 23 + (Z.pos m - 2 ^ 23)
  end.

Definition single (x : SpecFloat.spec_float) : real_t := real_of_bits (bits_of_b32 x).
Definition float_of (r : real_t) : SpecFloat.spec_float := b32_of_bits (real_bits r).

(** A double rounded to single precision. *)
Definition single_of_double (x : SpecFloat.spec_float) : SpecFloat.spec_float :=
  match x with
  | SpecFloat.S754_finite s m e => SpecFloat.binary_normalize 24 128 (SpecFloat.cond_Zopp s (Z.pos m)) e s
  | _ => x
  end.

Definition minstd_rand0 (x : Z) : Z := (16807 * x) mod (2 ^ 31 - 1).

(** [std::generate_canonical<float, 24>]: one output of the engine, less
    its minimum, over the rounded range; a quotient that rounds to 1 is
    replaced by the float just below 1. The distribution over (0.0, 1.0)
    returns it as it is. *)
Definition uniform (x : Z) : real_t * Z :=
  let x' := minstd_rand0 x in
  let sum := SpecFloat.binary_normalize 24 128 (x' - 1) 0 false in
  let range := SpecFloat.binary_normalize 24 128 (2 ^ 31 - 2) 0 false in
  let one := SpecFloat.binary_normalize 24 128 1 0 false in
  let below_one := b32_of_bits 1065353215 in
  let ret := SpecFloat.SFdiv 24 128 sum range in
  (single (if SpecFloat.SFltb ret one then ret else below_one), x').

Definition one_over_sqrt (K : Z) : real_t :=
  let k := SpecFloat.binary_normalize 53 1024 K 0 false in
  let one := SpecFloat.binary_normalize 53 1024 1 0 false in
  single (single_of_double
            (SpecFloat.SFdiv 53 1024 one (SpecFloat.SFsqrt 53 1024 k))).

Definition mul (a b : real_t) : real_t :=
  single (SpecFloat.SFmul 24 128 (float_of a) (float_of b)).

Definition runtime : Runtime :=
  {| engine := Z; default_engine := 1; dis := uniform;
     inv_sqrt := one_over_sqrt; real_mul := mul |}.

End Gnu.

(** The object before a constructor has run, and the world before the
    program has done anything. *)
Definition blank : Model :=
  {| score_func_ := ""; loss_func_ := ""; num_feat_ := 0; num_field_ := 0;
     num_K_ := 0; param_num_w_ := 0; param_w_ := [] |}.

Definition initial_world : World := {| heap_log := []; disk := ∅ |}.

(** ** What the initialiser leaves in the buffer

    The loops fill the buffer piece after piece; [lay_out] puts [n] pieces
    one after the other, numbered from [i] in steps of [step], and threads
    the generator through them. *)
Fixpoint lay_out {G : Type} (piece : Z -> G -> list slot * G) (step : Z)
    (n : nat) (i : Z) (g : G) : list slot * G :=
  match n with
  | O => ([], g)
  | S n' =>
      let '(l, g') := piece i g in
      let '(ls, g'') := lay_out piece step n' (i + step) g' in
      (l ++ ls, g'')
  end.

(** "linear": a weight 0 and its accumulator 1.0. *)
Definition linear_pair (i : Z) (g : unit) : list slot * unit :=
  ([Some real_zero; Some real_one], g).

Definition linear_layout (n : Z) : buffer :=
  fst (lay_out linear_pair 2 (Z.to_nat (n / 2)) 0 tt).

(** "fm": a drawn weight and its accumulator 1.0. *)
Definition fm_pair (rt : Runtime) (K : Z) (i : Z) (g : engine rt)
    : list slot * engine rt :=
  let '(x, g') := dis rt g in
  ([Some (real_mul rt (inv_sqrt rt K) x); Some real_one], g').

Definition fm_layout (rt : Runtime) (K n : Z) : buffer :=
  fst (lay_out (fm_pair rt K) 2 (Z.to_nat (n / 2)) 0 (default_engine rt)).

(** "ffm": [kAlign] weights for the factor positions [d .. d + 3], then
    their [kAlign] accumulators. *)
Definition ffm_chunk (rt : Runtime) (K : Z) (coef : real_t) (d : Z)
    (g : engine rt) : list slot * engine rt :=
  let '(x0, g0) := ffm_weight rt K coef d g in
  let '(x1, g1) := ffm_weight rt K coef (d + 1) g0 in
  let '(x2, g2) := ffm_weight rt K coef (d + 2) g1 in
  let '(x3, g3) := ffm_weight rt K coef (d + 3) g2 in
  ([Some x0; Some x1; Some x2; Some x3;
    Some real_one; Some real_one; Some real_one; Some real_one], g3).

(** The chunks of one (feature, field) pair. *)
Definition ffm_block (rt : Runtime) (K k_aligned : Z) (coef : real_t) (f : Z)
    (g : engine rt) : list slot * engine rt :=
  lay_out (ffm_chunk rt K coef) kAlign (Z.to_nat (k_aligned / kAlign)) 0 g.

(** The blocks of one feature. *)
Definition ffm_feature (rt : Runtime) (K k_aligned num_field : Z) (coef : real_t)
    (j : Z) (g : engine rt) : list slot * engine rt :=
  lay_out (ffm_block rt K k_aligned coef) 1 (Z.to_nat num_field) 0 g.

Definition ffm_layout (rt : Runtime) (num_feat num_field num_K : Z) : buffer :=
  let k_aligned := to_index (round_up_to_alignment num_K kAlign) in
  fst (lay_out (ffm_feature rt num_K k_aligned num_field (inv_sqrt rt num_K)) 1
               (Z.to_nat num_feat) 0 (default_engine rt)).

(** The number of parameters of a fresh model, from its dimensions. *)
Definition slot_count (score_func : string) (num_feature num_field num_K : Z)
    : option Z :=
  count_parameters score_func num_feature
    (to_index (round_up_to_alignment num_K kAlign)) num_field num_K.

(** The bytes [Serialize] writes for a model. *)
Definition label_bytes (str : string) : list byte :=
  size_t_bytes (length (list_byte_of_string str)) ++ list_byte_of_string str.

Definition header_bytes (score loss : string) (num_feat num_field num_K : Z)
    : list byte :=
  label_bytes score ++ label_bytes loss ++
  index_t_bytes num_feat ++ index_t_bytes num_field ++ index_t_bytes num_K.

Definition values_bytes (values : list real_t) : list byte :=
  concat (map real_bytes values).

Definition checkpoint_bytes (score loss : string) (num_feat num_field num_K : Z)
    (count : Z) (values : list real_t) : list byte :=
  header_bytes score loss num_feat num_field num_K ++
  index_t_bytes count ++ values_bytes values.

(** The slots of one block, of one feature, of a whole "ffm" buffer. *)
Definition block_slots (k_aligned : Z) : nat := (Z.to_nat (k_aligned / kAlign) * 8)%nat.
Definition feature_slots (num_field k_aligned : Z) : nat :=
  (Z.to_nat num_field * block_slots k_aligned)%nat.
Definition ffm_slots (num_feat num_field k_aligned : Z) : nat :=
  (Z.to_nat num_feat * feature_slots num_field k_aligned)%nat.

(** The scores [Initialize_w] knows, and the call it makes for each. *)
Definition known_score (score : string) : bool :=
  (score =? "linear")%string || (score =? "fm")%string || (score =? "ffm")%string.

Definition allocation_of (score : string) (slots : Z) : alloc_call :=
  if (score =? "ffm")%string
  then PosixMemalign kAlignByte (slots * 4)
  else Malloc (slots * 4).

(** A model with the given members. *)
Definition model_of (score loss : string) (num_feat num_field num_K count : Z)
    (w : buffer) : Model :=
  {| score_func_ := score; loss_func_ := loss;
     num_feat_ := num_feat; num_field_ := num_field; num_K_ := num_K;
     param_num_w_ := count; param_w_ := w |}.

(** The world after [bytes] have become the content of file [name]. *)
Definition written (name : string) (bytes : list byte) (w : World) : World :=
  {| heap_log := heap_log w; disk := <[name := bytes]> (disk w) |}.

(** The slot count of the spec's Layout Calculator, over the integers:
    features x 2, features x factors x 2, and
    features x paddedFactors x fields x 2. *)
Definition spec_slot_count (score : string) (features fields factors : Z)
    : option Z :=
  if (score =? "linear")%string then Some (features * 2)
  else if (score =? "fm")%string then Some (features * factors * 2)
  else if (score =? "ffm")%string then
    Some (features * round_up_to_alignment factors kAlign * fields * 2)
  else None.

(** Where the "ffm" branch puts the weight of feature [j], field [f] and
    factor position [d], and where it puts the accumulator of that weight:
    blocks of [2 * k_aligned] slots, made of chunks of [kAlign] weights
    followed by [kAlign] accumulators. *)
Definition ffm_weight_index (num_field k_aligned j f d : Z) : Z :=
  (j * num_field + f) * (2 * k_aligned) + d / kAlign * (2 * kAlign) + d mod kAlign.

Definition ffm_accumulator_index (num_field k_aligned j f d : Z) : Z :=
  ffm_weight_index num_field k_aligned j f d + kAlign.

(** A label no longer than a [size_t] can tell. *)
Definition short_label (str : string) : Prop :=
  Z.of_nat (length (list_byte_of_string str)) < 2 ^ 64.

(** The weights of a buffer of pairs, as floats. *)
Definition pair_weights (w : buffer) : list SpecFloat.spec_float :=
  omap (fun '(i, s) => if Nat.even i then Gnu.float_of <$> s else None)
       (imap (fun i s => (i, s)) w).

(** ** Notions for the further properties *)

(** The padded factor count of a model with [num_K] factors, as
    [get_aligned_k] gives it. *)
Definition aligned_k (num_K : Z) : Z :=
  to_index (round_up_to_alignment num_K kAlign).

(** The number of factor positions below [d] that hold a drawn weight. *)
Definition drawn (K d : Z) : nat := Z.to_nat (Z.min K d).

(** A model whose buffer holds [values] in its [param_num_w_] slots. *)
Definition holds_values (m : Model) (values : list real_t) : Prop :=
  param_w_ m = map Some values /\ Z.to_nat (param_num_w_ m) = length values.

(** A model whose members a checkpoint can carry: a score function that
    [Initialize_w] knows, a loss label a [size_t] can measure, counts in the
    range of [index_t]. *)
Definition loadable (m : Model) : Prop :=
  known_score (score_func_ m) = true /\ short_label (loss_func_ m) /\
  is_index (num_feat_ m) /\ is_index (num_field_ m) /\ is_index (num_K_ m) /\
  is_index (param_num_w_ m).

(** The bytes of the checkpoint of a model. *)
Definition checkpoint_of (m : Model) (values : list real_t) : list byte :=
  checkpoint_bytes (score_func_ m) (loss_func_ m) (num_feat_ m) (num_field_ m)
    (num_K_ m) (param_num_w_ m) values.

(** The failures by which the process is ended on purpose: a CHECK that
    does not hold, a LOG(FATAL). *)
Definition aborted (e : error) : Prop :=
  match e with
  | CheckFailed _ | LogFatal _ => True
  | _ => False
  end.

(** * Properties *)

(** ** Machine integers *)

Lemma index_modulus_eq : index_modulus = 4294967296.
Proof. reflexivity. Qed.

Lemma to_index_small (z : Z) : is_index z -> to_index z = z.
Proof. intros H. unfold to_index. apply Z.mod_small. exact H. Qed.

Lemma to_index_range (z : Z) : is_index (to_index z).
Proof.
  unfold is_index, to_index. apply Z.mod_pos_bound.
  rewrite index_modulus_eq. lia.
Qed.

Lemma to_index_le (z : Z) : 0 <= z -> to_index z <= z.
Proof.
  intros H. unfold to_index. apply Z.mod_le; [exact H|].
  rewrite index_modulus_eq. lia.
Qed.

Lemma to_index_mul_l (a b : Z) : to_index (to_index a * b) = to_index (a * b).
Proof. unfold to_index. apply Z.mul_mod_idemp_l. rewrite index_modulus_eq. lia. Qed.

Lemma index_add_small (a b : Z) : is_index (a + b) -> index_add a b = a + b.
Proof. apply to_index_small. Qed.

Lemma to_index_double_even (z : Z) : Z.even (to_index (z * 2)) = true.
Proof.
  unfold to_index. rewrite index_modulus_eq.
  replace (z * 2) with (2 * z) by lia.
  change 4294967296 with (2 * 2147483648).
  rewrite Z.mul_mod_distr_l by lia.
  apply Z.even_mul.
Qed.

(** Whatever the width of the integer type, doubling wraps around to 0 at
    half its range. *)
Remark doubling_wraps_at_any_width (bits : Z) :
  0 < bits -> (2 ^ (bits - 1) * 2) mod 2 ^ bits = 0.
Proof.
  intros H. rewrite Z.mul_comm, <- Z.pow_succ_r by lia.
  replace (Z.succ (bits - 1)) with bits by lia.
  apply Z_mod_same_full.
Qed.

Lemma round_up_ge (k a : Z) : 0 < a -> k <= round_up_to_alignment k a.
Proof.
  intros Ha. unfold round_up_to_alignment.
  pose proof (Z.div_mod (k + a - 1) a ltac:(lia)) as Hdm.
  pose proof (Z.mod_pos_bound (k + a - 1) a Ha) as Hb.
  lia.
Qed.

Lemma round_up_multiple (k a : Z) : 0 < a -> round_up_to_alignment k a mod a = 0.
Proof.
  intros Ha. unfold round_up_to_alignment. apply Z.mod_mul. lia.
Qed.

Lemma round_up_mono (k k' a : Z) :
  0 < a -> k <= k' -> round_up_to_alignment k a <= round_up_to_alignment k' a.
Proof.
  intros Ha Hk. unfold round_up_to_alignment.
  apply Z.mul_le_mono_nonneg_r; [lia|].
  apply Z.div_le_mono; lia.
Qed.

Lemma round_up_nonneg (k a : Z) : 0 < a -> 0 <= k -> 0 <= round_up_to_alignment k a.
Proof. intros Ha Hk. pose proof (round_up_ge k a Ha). lia. Qed.

(** ** Stores and loops *)

Lemma store_ok (buf : buffer) (i : nat) (v : real_t) :
  (i < length buf)%nat -> store buf (Z.of_nat i) v = Ok (<[i := Some v]> buf).
Proof.
  intros H. unfold store.
  replace (0 <=? Z.of_nat i) with true by (symmetry; apply Z.leb_le; lia).
  replace (Z.of_nat i <? Z.of_nat (length buf)) with true
    by (symmetry; apply Z.ltb_lt; lia).
  rewrite Nat2Z.id. reflexivity.
Qed.

Lemma store_out (buf : buffer) (i : Z) (v : real_t) :
  Z.of_nat (length buf) <= i -> store buf i v = Err OutOfBounds.
Proof.
  intros H. unfold store.
  replace (i <? Z.of_nat (length buf)) with false
    by (symmetry; apply Z.ltb_ge; lia).
  rewrite andb_false_r. reflexivity.
Qed.

Lemma for_continue {S : Type} (fuel : nat) (cond : S -> bool)
    (body : S -> outcome S) (s : S) :
  cond s = true ->
  for_ (Datatypes.S fuel) cond body s = obind (body s) (for_ fuel cond body).
Proof. intros H. simpl. rewrite H. reflexivity. Qed.

Lemma for_exit {S : Type} (fuel : nat) (cond : S -> bool)
    (body : S -> outcome S) (s : S) :
  cond s = false -> for_ (Datatypes.S fuel) cond body s = Ok s.
Proof. intros H. simpl. rewrite H. reflexivity. Qed.

(** ** The pieces of a layout *)

Section LayOut.
Context {G : Type}.
Variable piece : Z -> G -> list slot * G.
Variable step : Z.
Variable len : nat.
Hypothesis piece_length : forall i g, length (fst (piece i g)) = len.

Lemma lay_out_length (n : nat) (i : Z) (g : G) :
  length (fst (lay_out piece step n i g)) = (n * len)%nat.
Proof.
  revert i g. induction n as [|n IH]; intros i g; simpl; [reflexivity|].
  specialize (piece_length i g).
  destruct (piece i g) as [l g'].
  specialize (IH (i + step) g').
  destruct (lay_out piece step n (i + step) g') as [ls g''].
  simpl in *. rewrite length_app. lia.
Qed.

(** Slot [r] of piece number [q]. *)
Lemma lay_out_lookup (q r n : nat) (i : Z) (g : G) :
  (q < n)%nat -> (r < len)%nat ->
  fst (lay_out piece step n i g) !! (q * len + r)%nat =
  fst (piece (i + step * Z.of_nat q) (snd (lay_out piece step q i g))) !! r.
Proof.
  revert n i g. induction q as [|q IH]; intros n i g Hq Hr.
  - destruct n as [|n]; [lia|].
    replace (i + step * Z.of_nat 0) with i by lia. simpl.
    specialize (piece_length i g).
    destruct (piece i g) as [l g'].
    destruct (lay_out piece step n (i + step) g') as [ls g''].
    simpl in *. apply lookup_app_l. lia.
  - destruct n as [|n]; [lia|]. simpl.
    specialize (piece_length i g).
    specialize (IH n (i + step) (snd (piece i g)) ltac:(lia) Hr).
    destruct (piece i g) as [l g'].
    simpl in IH.
    destruct (lay_out piece step n (i + step) g') as [ls g''].
    destruct (lay_out piece step q (i + step) g') as [ls' g3] eqn:Hq'.
    simpl in *.
    rewrite lookup_app_r by lia.
    replace (len + q * len + r - length l)%nat with (q * len + r)%nat by lia.
    rewrite IH. f_equal. f_equal. f_equal. lia.
Qed.
End LayOut.

(** A store [k] slots behind a prefix. *)
Lemma store_after (pre mid : buffer) (k : nat) (i : Z) (v : real_t) :
  i = Z.of_nat (length pre) + Z.of_nat k -> (k < length mid)%nat ->
  store (pre ++ mid) i v = Ok (pre ++ <[k := Some v]> mid).
Proof.
  intros -> Hk. rewrite <- Nat2Z.inj_add.
  rewrite store_ok by (rewrite length_app; lia).
  f_equal. rewrite insert_app_r_alt by lia.
  f_equal. f_equal. lia.
Qed.

(** ** The loop of "linear" *)

Lemma linear_for (k : nat) : forall (pre old : buffer) (i n : Z) (fuel : nat),
  i = Z.of_nat (length pre) -> length old = (2 * k)%nat ->
  n = i + 2 * Z.of_nat k -> n < index_modulus -> (k < fuel)%nat ->
  for_ fuel (fun st => fst st <? n) linear_body (i, pre ++ old) =
  Ok (n, pre ++ fst (lay_out linear_pair 2 k i tt)).
Proof.
  induction k as [|k IH]; intros pre old i n fuel Hi Hlen Hn Hsmall Hfuel.
  - destruct old; [|discriminate]. destruct fuel as [|fuel]; [lia|].
    rewrite for_exit by (simpl; apply Z.ltb_ge; lia).
    simpl. f_equal. f_equal. lia.
  - destruct old as [|a [|b old]]; simpl in Hlen; try lia.
    destruct fuel as [|fuel]; [lia|].
    rewrite for_continue by (simpl; apply Z.ltb_lt; lia).
    unfold linear_body.
    rewrite !index_add_small by (unfold is_index; lia).
    rewrite (store_after pre (a :: b :: old) 0) by (simpl; lia).
    cbn [obind insert list_insert].
    rewrite (store_after pre (Some real_zero :: b :: old) 1) by (simpl; lia).
    cbn [obind insert list_insert].
    change (pre ++ Some real_zero :: Some real_one :: old)
      with (pre ++ [Some real_zero; Some real_one] ++ old).
    rewrite app_assoc.
    rewrite (IH _ old (i + 2) n fuel); try lia.
    + simpl. destruct (lay_out linear_pair 2 k (i + 2) tt) as [ls g].
      simpl. rewrite <- app_assoc. reflexivity.
    + rewrite length_app. simpl. lia.
Qed.

Lemma linear_loop_spec (n : Z) :
  is_index n -> Z.even n = true ->
  linear_loop n (replicate (Z.to_nat n) None) = Ok (linear_layout n).
Proof.
  intros Hn Heven. unfold linear_loop, linear_layout.
  destruct Hn as [Hn0 Hn1].
  apply Z.even_spec in Heven. destruct Heven as [h Hh].
  assert (Hdiv : n / 2 = h) by (subst n; rewrite Z.mul_comm; apply Z.div_mul; lia).
  rewrite (linear_for (Z.to_nat (n / 2)) [] (replicate (Z.to_nat n) None) 0 n).
  - reflexivity.
  - reflexivity.
  - rewrite length_replicate. lia.
  - lia.
  - exact Hn1.
  - unfold fuel_for. lia.
Qed.

(** ** The loop of "fm" *)

Lemma fm_for (rt : Runtime) (K : Z) (k : nat) :
  forall (pre old : buffer) (i n : Z) (g : engine rt) (fuel : nat),
  i = Z.of_nat (length pre) -> length old = (2 * k)%nat ->
  n = i + 2 * Z.of_nat k -> n < index_modulus -> (k < fuel)%nat ->
  for_ fuel (fun st => fst (fst st) <? n) (fm_body rt K) (i, g, pre ++ old) =
  Ok (n, snd (lay_out (fm_pair rt K) 2 k i g),
      pre ++ fst (lay_out (fm_pair rt K) 2 k i g)).
Proof.
  induction k as [|k IH]; intros pre old i n g fuel Hi Hlen Hn Hsmall Hfuel.
  - destruct old; [|discriminate]. destruct fuel as [|fuel]; [lia|].
    rewrite for_exit by (simpl; apply Z.ltb_ge; lia).
    simpl. f_equal. f_equal. f_equal. lia.
  - destruct old as [|a [|b old]]; simpl in Hlen; try lia.
    destruct fuel as [|fuel]; [lia|].
    rewrite for_continue by (simpl; apply Z.ltb_lt; lia).
    unfold fm_body. cbn [lay_out]. unfold fm_pair at 1 3.
    destruct (dis rt g) as [x g'].
    rewrite !index_add_small by (unfold is_index; lia).
    rewrite (store_after pre (a :: b :: old) 0) by (simpl; lia).
    cbn [obind insert list_insert].
    rewrite (store_after pre (_ :: b :: old) 1) by (simpl; lia).
    cbn [obind insert list_insert].
    match goal with
    | |- context [pre ++ ?x :: ?y :: old] =>
        change (pre ++ x :: y :: old) with (pre ++ [x; y] ++ old)
    end.
    rewrite app_assoc.
    rewrite (IH _ old (i + 2) n g' fuel); try lia.
    + destruct (lay_out (fm_pair rt K) 2 k (i + 2) g') as [ls g''].
      simpl. rewrite <- app_assoc. reflexivity.
    + rewrite length_app. simpl. lia.
Qed.

Lemma fm_loop_spec (rt : Runtime) (K n : Z) :
  is_index n -> Z.even n = true ->
  fm_loop rt K n (default_engine rt) (replicate (Z.to_nat n) None) =
  Ok (fm_layout rt K n).
Proof.
  intros Hn Heven. unfold fm_loop, fm_layout.
  destruct Hn as [Hn0 Hn1].
  apply Z.even_spec in Heven. destruct Heven as [h Hh].
  assert (Hdiv : n / 2 = h) by (subst n; rewrite Z.mul_comm; apply Z.div_mul; lia).
  rewrite (fm_for rt K (Z.to_nat (n / 2)) [] (replicate (Z.to_nat n) None) 0 n).
  - reflexivity.
  - reflexivity.
  - rewrite length_replicate. lia.
  - lia.
  - exact Hn1.
  - unfold fuel_for. lia.
Qed.

(** ** Loops that fill the buffer piece by piece

    A loop over a cursor whose body either lays one piece of [len] slots
    behind the cursor or, when fewer than [len] slots are left, stores
    outside the buffer. *)
Section CountedLoop.
Variable rt : Runtime.
Variable body : Z * cursor rt -> outcome (Z * cursor rt).
Variable piece : Z -> engine rt -> list slot * engine rt.
Variable step : Z.
Variable len : nat.
Variable N : Z.
Hypothesis step_pos : 0 < step.
Hypothesis piece_length : forall i g, length (fst (piece i g)) = len.
Hypothesis body_spec : forall i c pre old,
  0 <= i -> i + step <= N ->
  mem c = pre ++ old -> w_off c = Z.of_nat (length pre) ->
  body (i, c) =
  if (len <=? length old)%nat
  then Ok (i + step,
           {| w_off := w_off c + Z.of_nat len;
              gen := snd (piece i (gen c));
              mem := pre ++ fst (piece i (gen c)) ++ drop len old |})
  else Err OutOfBounds.

Lemma counted_loop (n : nat) : forall i c pre old fuel,
  0 <= i -> N = i + step * Z.of_nat n ->
  mem c = pre ++ old -> w_off c = Z.of_nat (length pre) ->
  (n < fuel)%nat ->
  for_ fuel (fun st => fst st <? N) body (i, c) =
  if (n * len <=? length old)%nat
  then Ok (N,
           {| w_off := w_off c + Z.of_nat (n * len);
              gen := snd (lay_out piece step n i (gen c));
              mem := pre ++ fst (lay_out piece step n i (gen c))
                         ++ drop (n * len) old |})
  else Err OutOfBounds.
Proof.
  induction n as [|n IH]; intros i c pre old fuel Hi HN Hmem Hw Hfuel.
  - destruct fuel as [|fuel]; [lia|].
    rewrite for_exit by (simpl; apply Z.ltb_ge; lia).
    simpl. destruct c as [w g b]. simpl in *. subst b.
    f_equal. f_equal; [lia|]. f_equal. lia.
  - destruct fuel as [|fuel]; [lia|].
    rewrite for_continue by (simpl; apply Z.ltb_lt; lia).
    rewrite (body_spec i c pre old) by (assumption || lia).
    pose proof (piece_length i (gen c)) as Hlen.
    destruct (Nat.leb_spec len (length old)) as [Hfit|Hfit].
    + cbn [obind]. rewrite app_assoc.
      rewrite (IH (i + step) _ (pre ++ fst (piece i (gen c))) (drop len old) fuel);
        cbn [w_off gen mem]; try lia; try reflexivity;
        try (rewrite length_app; lia).
      rewrite length_drop. cbn [lay_out].
      destruct (piece i (gen c)) as [l g']. cbn [fst snd] in *.
      destruct (lay_out piece step n (i + step) g') as [ls g''].
      cbn [fst snd].
      destruct (Nat.leb_spec (n * len) (length old - len)) as [H1|H1];
        destruct (Nat.leb_spec (S n * len) (length old)) as [H2|H2];
        try lia; [|reflexivity].
      f_equal. f_equal. f_equal; [lia|].
      rewrite drop_drop. rewrite <- !app_assoc.
      reflexivity.
    + cbn [obind].
      destruct (Nat.leb_spec (S n * len) (length old)) as [H2|H2]; [lia|].
      reflexivity.
Qed.
End CountedLoop.

(** ** The loops of "ffm" *)

Lemma ffm_chunk_length (rt : Runtime) (K : Z) (coef : real_t) (d : Z) (g : engine rt) :
  length (fst (ffm_chunk rt K coef d g)) = 8%nat.
Proof.
  unfold ffm_chunk.
  destruct (ffm_weight rt K coef d g) as [x0 g0].
  destruct (ffm_weight rt K coef (d + 1) g0) as [x1 g1].
  destruct (ffm_weight rt K coef (d + 2) g1) as [x2 g2].
  destruct (ffm_weight rt K coef (d + 3) g2) as [x3 g3].
  reflexivity.
Qed.

(** One round of the innermost loop at factor position [d], all inside
    the buffer. *)
Ltac ffm_round rt K coef d g k :=
  rewrite for_continue by reflexivity;
  unfold ffm_s_body at 1; cbn [w_off gen mem];
  let x := fresh "x" in
  let g' := fresh "g" in
  destruct (ffm_weight rt K coef d g) as [x g'];
  rewrite (store_after _ _ k) by (simpl; unfold kAlign; lia);
  cbn [obind insert list_insert];
  rewrite (store_after _ _ (k + 4)%nat) by (simpl; unfold kAlign; lia);
  cbn [obind insert list_insert Nat.add];
  rewrite !index_add_small by (unfold is_index; rewrite index_modulus_eq; lia).

Lemma ffm_d_body_fits (rt : Runtime) (K : Z) (coef : real_t) (N : Z) :
  N < index_modulus ->
  forall d c pre old,
  0 <= d -> d + kAlign <= N ->
  mem c = pre ++ old -> w_off c = Z.of_nat (length pre) ->
  (8 <= length old)%nat ->
  ffm_d_body rt K coef (d, c) =
  Ok (d + kAlign,
      {| w_off := w_off c + Z.of_nat 8;
         gen := snd (ffm_chunk rt K coef d (gen c));
         mem := pre ++ fst (ffm_chunk rt K coef d (gen c)) ++ drop 8 old |}).
Proof.
  intros HN d c pre old Hd HdN Hmem Hw Hfit.
  destruct c as [w g b]. cbn [w_off gen mem] in *. subst w b.
  unfold ffm_d_body, ffm_chunk, fuel_for, kAlign in *.
  change (Z.to_nat 4) with 4%nat.
  rewrite index_modulus_eq in HN.
  destruct old as [|a0 [|a1 [|a2 [|a3 [|a4 [|a5 [|a6 [|a7 rest]]]]]]]];
    simpl in Hfit; try lia.
  ffm_round rt K coef d g 0%nat.
  replace (d + 1) with (d + 1) by lia.
  ffm_round rt K coef (d + 1) g0 1%nat.
  replace (d + 1 + 1) with (d + 2) by lia.
  ffm_round rt K coef (d + 2) g1 2%nat.
  replace (d + 2 + 1) with (d + 3) by lia.
  ffm_round rt K coef (d + 3) g2 3%nat.
  rewrite for_exit by reflexivity.
  cbn [obind fst snd w_off gen mem drop app].
  f_equal. f_equal; [lia|]. f_equal. lia.
Qed.

(** One store of the innermost loop that may fall outside the buffer. *)
Ltac store_or_fail old k :=
  destruct (le_lt_dec (length old) k);
  [ rewrite store_out by (rewrite length_app, ?length_insert; unfold kAlign; lia);
    reflexivity
  | rewrite (store_after _ _ k) by (rewrite ?length_insert; unfold kAlign; lia);
    cbn [obind] ].

Ltac ffm_round_short rt K coef d g old k :=
  rewrite for_continue by reflexivity;
  unfold ffm_s_body at 1; cbn [w_off gen mem];
  let x := fresh "x" in
  let g' := fresh "g" in
  destruct (ffm_weight rt K coef d g) as [x g'];
  store_or_fail old k;
  store_or_fail old (k + 4)%nat;
  rewrite !index_add_small by (unfold is_index; rewrite index_modulus_eq; lia).

Lemma ffm_d_body_short (rt : Runtime) (K : Z) (coef : real_t) (N : Z) :
  N < index_modulus ->
  forall d c pre old,
  0 <= d -> d + kAlign <= N ->
  mem c = pre ++ old -> w_off c = Z.of_nat (length pre) ->
  (length old < 8)%nat ->
  ffm_d_body rt K coef (d, c) = Err OutOfBounds.
Proof.
  intros HN d c pre old Hd HdN Hmem Hw Hshort.
  destruct c as [w g b]. cbn [w_off gen mem] in *. subst w b.
  unfold ffm_d_body, fuel_for, kAlign in *.
  change (Z.to_nat 4) with 4%nat.
  rewrite index_modulus_eq in HN.
  ffm_round_short rt K coef d g old 0%nat.
  ffm_round_short rt K coef (d + 1) g0 old 1%nat.
  ffm_round_short rt K coef (d + 1 + 1) g1 old 2%nat.
  ffm_round_short rt K coef (d + 1 + 1 + 1) g2 old 3%nat.
  lia.
Qed.

Lemma ffm_d_body_spec (rt : Runtime) (K : Z) (coef : real_t) (N : Z) :
  N < index_modulus ->
  forall d c pre old,
  0 <= d -> d + kAlign <= N ->
  mem c = pre ++ old -> w_off c = Z.of_nat (length pre) ->
  ffm_d_body rt K coef (d, c) =
  if (8 <=? length old)%nat
  then Ok (d + kAlign,
           {| w_off := w_off c + Z.of_nat 8;
              gen := snd (ffm_chunk rt K coef d (gen c));
              mem := pre ++ fst (ffm_chunk rt K coef d (gen c)) ++ drop 8 old |})
  else Err OutOfBounds.
Proof.
  intros HN d c pre old Hd HdN Hmem Hw.
  destruct (Nat.leb_spec 8 (length old)) as [Hfit|Hshort].
  - apply (ffm_d_body_fits rt K coef N); assumption.
  - apply (ffm_d_body_short rt K coef N HN d c pre old); assumption.
Qed.

Lemma ffm_block_length (rt : Runtime) (K k_aligned : Z) (coef : real_t) (f : Z)
    (g : engine rt) :
  length (fst (ffm_block rt K k_aligned coef f g)) = block_slots k_aligned.
Proof.
  unfold ffm_block, block_slots.
  apply lay_out_length. intros i g'. apply ffm_chunk_length.
Qed.

Lemma ffm_feature_length (rt : Runtime) (K k_aligned num_field : Z) (coef : real_t)
    (j : Z) (g : engine rt) :
  length (fst (ffm_feature rt K k_aligned num_field coef j g)) =
  feature_slots num_field k_aligned.
Proof.
  unfold ffm_feature, feature_slots.
  apply lay_out_length. intros i g'. apply ffm_block_length.
Qed.

Section FfmLoops.
Variable rt : Runtime.
Variables K k_aligned num_field : Z.
Variable coef : real_t.
Hypothesis k_aligned_index : is_index k_aligned.
Hypothesis k_aligned_multiple : k_aligned mod kAlign = 0.
Hypothesis num_field_index : is_index num_field.

Lemma ffm_f_body_spec (f : Z) (c : cursor rt) (pre old : buffer) :
  0 <= f -> f + 1 <= num_field ->
  mem c = pre ++ old -> w_off c = Z.of_nat (length pre) ->
  ffm_f_body rt K k_aligned coef (f, c) =
  if (block_slots k_aligned <=? length old)%nat
  then Ok (f + 1,
           {| w_off := w_off c + Z.of_nat (block_slots k_aligned);
              gen := snd (ffm_block rt K k_aligned coef f (gen c));
              mem := pre ++ fst (ffm_block rt K k_aligned coef f (gen c))
                         ++ drop (block_slots k_aligned) old |})
  else Err OutOfBounds.
Proof.
  intros Hf HfN Hmem Hw. unfold ffm_f_body.
  destruct k_aligned_index as [Hk0 Hk1].
  rewrite (counted_loop rt (ffm_d_body rt K coef) (ffm_chunk rt K coef)
             kAlign 8 k_aligned ltac:(reflexivity)
             (ffm_chunk_length rt K coef)
             (ffm_d_body_spec rt K coef k_aligned Hk1)
             (Z.to_nat (k_aligned / kAlign)) 0 c pre old).
  - fold (block_slots k_aligned).
    destruct (block_slots k_aligned <=? length old)%nat; [|reflexivity].
    cbn [obind snd]. rewrite index_add_small; [reflexivity|].
    destruct num_field_index. unfold is_index. lia.
  - lia.
  - pose proof (Z.div_mod k_aligned kAlign ltac:(discriminate)) as Hdm.
    rewrite k_aligned_multiple in Hdm.
    rewrite Z2Nat.id by (apply Z.div_pos; [lia|reflexivity]). lia.
  - exact Hmem.
  - exact Hw.
  - unfold fuel_for.
    assert (k_aligned / kAlign <= k_aligned)
      by (apply Z.div_le_upper_bound; unfold kAlign; lia).
    lia.
Qed.

Lemma ffm_j_body_spec (N j : Z) (c : cursor rt) (pre old : buffer) :
  N < index_modulus ->
  0 <= j -> j + 1 <= N ->
  mem c = pre ++ old -> w_off c = Z.of_nat (length pre) ->
  ffm_j_body rt K k_aligned num_field coef (j, c) =
  if (feature_slots num_field k_aligned <=? length old)%nat
  then Ok (j + 1,
           {| w_off := w_off c + Z.of_nat (feature_slots num_field k_aligned);
              gen := snd (ffm_feature rt K k_aligned num_field coef j (gen c));
              mem := pre ++ fst (ffm_feature rt K k_aligned num_field coef j (gen c))
                         ++ drop (feature_slots num_field k_aligned) old |})
  else Err OutOfBounds.
Proof.
  intros HN Hj HjN Hmem Hw. unfold ffm_j_body.
  destruct num_field_index as [Hf0 Hf1].
  rewrite (counted_loop rt (ffm_f_body rt K k_aligned coef)
             (ffm_block rt K k_aligned coef)
             1 (block_slots k_aligned) num_field ltac:(reflexivity)
             (ffm_block_length rt K k_aligned coef)
             ffm_f_body_spec
             (Z.to_nat num_field) 0 c pre old).
  - fold (feature_slots num_field k_aligned).
    destruct (feature_slots num_field k_aligned <=? length old)%nat; [|reflexivity].
    cbn [obind snd]. rewrite index_add_small; [reflexivity|].
    unfold is_index. lia.
  - lia.
  - lia.
  - exact Hmem.
  - exact Hw.
  - unfold fuel_for. lia.
Qed.
End FfmLoops.

Lemma get_aligned_k_multiple (m : Model) : get_aligned_k m mod kAlign = 0.
Proof.
  unfold get_aligned_k, to_index. rewrite index_modulus_eq.
  change 4294967296 with (kAlign * 1073741824).
  rewrite Z.rem_mul_r by (unfold kAlign; lia).
  rewrite Z.mul_comm, Z.mod_add by (unfold kAlign; lia).
  rewrite Z.mod_mod by (unfold kAlign; lia).
  apply round_up_multiple. reflexivity.
Qed.

Lemma ffm_loop_spec (rt : Runtime) (m : Model) (buf : buffer) :
  is_index (num_feat_ m) -> is_index (num_field_ m) ->
  ffm_loop rt m (default_engine rt) buf =
  if (ffm_slots (num_feat_ m) (num_field_ m) (get_aligned_k m) <=? length buf)%nat
  then Ok (ffm_layout rt (num_feat_ m) (num_field_ m) (num_K_ m)
           ++ drop (ffm_slots (num_feat_ m) (num_field_ m) (get_aligned_k m)) buf)
  else Err OutOfBounds.
Proof.
  intros Hfeat Hfield. unfold ffm_loop.
  destruct Hfeat as [Hn0 Hn1].
  rewrite (counted_loop rt
             (ffm_j_body rt (num_K_ m) (get_aligned_k m) (num_field_ m)
                (inv_sqrt rt (num_K_ m)))
             (ffm_feature rt (num_K_ m) (get_aligned_k m) (num_field_ m)
                (inv_sqrt rt (num_K_ m)))
             1 (feature_slots (num_field_ m) (get_aligned_k m)) (num_feat_ m)
             ltac:(reflexivity)
             (ffm_feature_length rt (num_K_ m) (get_aligned_k m) (num_field_ m)
                (inv_sqrt rt (num_K_ m)))
             (fun j c pre old =>
                ffm_j_body_spec rt (num_K_ m) (get_aligned_k m) (num_field_ m)
                  (inv_sqrt rt (num_K_ m)) (to_index_range _)
                  (get_aligned_k_multiple m) Hfield (num_feat_ m) j c pre old Hn1)
             (Z.to_nat (num_feat_ m)) 0 _ [] buf);
    cbn [w_off gen mem length]; try reflexivity; try lia.
  - fold (ffm_slots (num_feat_ m) (num_field_ m) (get_aligned_k m)).
    destruct (ffm_slots (num_feat_ m) (num_field_ m) (get_aligned_k m) <=? length buf)%nat;
      reflexivity.
  - unfold fuel_for. lia.
Qed.

(** ** Initialize_w *)

Lemma index_mul_range (a b : Z) : is_index (index_mul a b).
Proof. apply to_index_range. Qed.

Lemma Initialize_w_linear (rt : Runtime) (m : Model) (w : World) :
  score_func_ m = "linear"%string ->
  is_index (param_num_w_ m) -> Z.even (param_num_w_ m) = true ->
  Initialize_w rt true m w =
  (Ok (with_param_w_ (linear_layout (param_num_w_ m)) m),
   allocated (Malloc (param_num_w_ m * 4)) w).
Proof.
  intros Hs Hn He. unfold Initialize_w. rewrite Hs.
  cbn [String.eqb Ascii.eqb Bool.eqb orb].
  unfold bind, malloc, lift, ret.
  rewrite linear_loop_spec by assumption. reflexivity.
Qed.

Lemma Initialize_w_fm (rt : Runtime) (m : Model) (w : World) :
  score_func_ m = "fm"%string ->
  is_index (param_num_w_ m) -> Z.even (param_num_w_ m) = true ->
  Initialize_w rt true m w =
  (Ok (with_param_w_ (fm_layout rt (num_K_ m) (param_num_w_ m)) m),
   allocated (Malloc (param_num_w_ m * 4)) w).
Proof.
  intros Hs Hn He. unfold Initialize_w. rewrite Hs.
  cbn [String.eqb Ascii.eqb Bool.eqb orb].
  unfold bind, malloc, lift, ret.
  rewrite fm_loop_spec by assumption. reflexivity.
Qed.

Lemma Initialize_w_ffm (rt : Runtime) (m : Model) (w : World) :
  score_func_ m = "ffm"%string ->
  is_index (num_feat_ m) -> is_index (num_field_ m) ->
  Initialize_w rt true m w =
  (if (ffm_slots (num_feat_ m) (num_field_ m) (get_aligned_k m)
       <=? Z.to_nat (param_num_w_ m))%nat
   then Ok (with_param_w_
              (ffm_layout rt (num_feat_ m) (num_field_ m) (num_K_ m) ++
               drop (ffm_slots (num_feat_ m) (num_field_ m) (get_aligned_k m))
                    (replicate (Z.to_nat (param_num_w_ m)) None)) m)
   else Err OutOfBounds,
   allocated (PosixMemalign kAlignByte (param_num_w_ m * 4)) w).
Proof.
  intros Hs Hfeat Hfield. unfold Initialize_w. rewrite Hs.
  cbn [String.eqb Ascii.eqb Bool.eqb orb].
  unfold bind, posix_memalign, lift, ret.
  rewrite ffm_loop_spec by assumption.
  rewrite length_replicate.
  destruct (_ <=? _)%nat; reflexivity.
Qed.

(** Without initial values only the allocation is left. *)
Lemma Initialize_w_unset (rt : Runtime) (m : Model) (w : World) :
  Initialize_w rt false m w =
  if known_score (score_func_ m)
  then (Ok (with_param_w_ (replicate (Z.to_nat (param_num_w_ m)) None) m),
        allocated (allocation_of (score_func_ m) (param_num_w_ m)) w)
  else (Err (LogFatal (unknown_score (score_func_ m))), w).
Proof.
  unfold Initialize_w, known_score, allocation_of, bind, malloc, posix_memalign,
    LOG_FATAL, abort, ret.
  destruct (score_func_ m =? "linear")%string eqn:H1; cbn [orb].
  - apply String.eqb_eq in H1. rewrite H1. reflexivity.
  - destruct (score_func_ m =? "fm")%string eqn:H2; cbn [orb].
    + apply String.eqb_eq in H2. rewrite H2. reflexivity.
    + destruct (score_func_ m =? "ffm")%string; reflexivity.
Qed.

(** ** Initialize *)

Lemma nonempty_eqb (s : string) : s <> ""%string -> (s =? "")%string = false.
Proof. intros H. apply String.eqb_neq. exact H. Qed.

(** The five checks pass. *)
Ltac pass_checks Hloss Hfeat Hfield HK :=
  unfold Initialize, CHECK;
  rewrite (nonempty_eqb _ Hloss);
  rewrite (proj2 (Z.ltb_lt _ _) Hfeat);
  rewrite (proj2 (Z.leb_le _ _) Hfield);
  rewrite (proj2 (Z.leb_le _ _) HK);
  cbn [String.eqb Ascii.eqb Bool.eqb negb];
  unfold bind at 1 2 3 4 5; cbn [ret];
  unfold count_parameters;
  cbn [String.eqb Ascii.eqb Bool.eqb];
  unfold bind at 1; cbn [ret].

Lemma Initialize_linear (rt : Runtime) (loss : string) (f fd K : Z)
    (this : Model) (w : World) :
  loss <> ""%string -> 0 < f -> 0 <= fd -> 0 <= K ->
  Initialize rt "linear" loss f fd K this w =
  (Ok (model_of "linear" loss f fd K (index_mul f 2)
         (linear_layout (index_mul f 2))),
   allocated (Malloc (index_mul f 2 * 4)) w).
Proof.
  intros Hloss Hfeat Hfield HK. pass_checks Hloss Hfeat Hfield HK.
  rewrite Initialize_w_linear.
  - reflexivity.
  - reflexivity.
  - apply index_mul_range.
  - apply to_index_double_even.
Qed.

Lemma Initialize_fm (rt : Runtime) (loss : string) (f fd K : Z)
    (this : Model) (w : World) :
  loss <> ""%string -> 0 < f -> 0 <= fd -> 0 <= K ->
  Initialize rt "fm" loss f fd K this w =
  (Ok (model_of "fm" loss f fd K (index_mul (index_mul f K) 2)
         (fm_layout rt K (index_mul (index_mul f K) 2))),
   allocated (Malloc (index_mul (index_mul f K) 2 * 4)) w).
Proof.
  intros Hloss Hfeat Hfield HK. pass_checks Hloss Hfeat Hfield HK.
  rewrite Initialize_w_fm.
  - reflexivity.
  - reflexivity.
  - apply index_mul_range.
  - apply to_index_double_even.
Qed.

Lemma ffm_slots_eq (f fd ka : Z) :
  0 <= f -> 0 <= fd -> 0 <= ka -> ka mod kAlign = 0 ->
  Z.of_nat (ffm_slots f fd ka) = f * ka * fd * 2.
Proof.
  intros Hf Hfd Hka Hmod.
  unfold ffm_slots, feature_slots, block_slots.
  pose proof (Z.div_mod ka kAlign ltac:(discriminate)) as Hdm.
  rewrite Hmod in Hdm.
  assert (0 <= ka / kAlign) by (apply Z.div_pos; [lia|reflexivity]).
  rewrite !Nat2Z.inj_mul, !Z2Nat.id by lia.
  unfold kAlign in *. nia.
Qed.

Lemma index_mul_chain (a b c : Z) :
  index_mul (index_mul (index_mul a b) c) 2 = to_index (a * b * c * 2).
Proof.
  unfold index_mul. rewrite to_index_mul_l.
  replace (to_index (a * b) * c * 2) with (to_index (a * b) * (c * 2)) by ring.
  rewrite to_index_mul_l. f_equal. ring.
Qed.

Lemma padded_index (K : Z) :
  is_index (to_index (round_up_to_alignment K kAlign)) /\
  to_index (round_up_to_alignment K kAlign) mod kAlign = 0.
Proof.
  split; [apply to_index_range|].
  apply (get_aligned_k_multiple (model_of "" "" 0 0 K 0 [])).
Qed.

(** The padded factor count either is the rounded factor count or has
    wrapped around to 0. *)
Lemma padded_or_wrapped (K : Z) :
  is_index K ->
  to_index (round_up_to_alignment K kAlign) = round_up_to_alignment K kAlign \/
  to_index (round_up_to_alignment K kAlign) = 0.
Proof.
  intros [HK0 HK1]. rewrite index_modulus_eq in HK1.
  pose proof (round_up_ge K kAlign ltac:(reflexivity)) as Hge.
  pose proof (round_up_multiple K kAlign ltac:(reflexivity)) as Hmod.
  pose proof (Z.div_mod (round_up_to_alignment K kAlign) kAlign ltac:(discriminate))
    as Hdm.
  rewrite Hmod in Hdm.
  assert (Hlt : round_up_to_alignment K kAlign < K + kAlign).
  { unfold round_up_to_alignment.
    pose proof (Z.div_mod (K + kAlign - 1) kAlign ltac:(discriminate)).
    pose proof (Z.mod_pos_bound (K + kAlign - 1) kAlign ltac:(reflexivity)).
    lia. }
  unfold kAlign in *.
  destruct (Z_lt_le_dec (round_up_to_alignment K 4) 4294967296) as [Hin|Hout].
  - left. apply to_index_small. split; [lia|rewrite index_modulus_eq; exact Hin].
  - right. assert (Heq : round_up_to_alignment K 4 = 4294967296) by lia.
    rewrite Heq. reflexivity.
Qed.

Lemma Initialize_ffm (rt : Runtime) (loss : string) (f fd K : Z)
    (this : Model) (w : World) :
  loss <> ""%string -> 0 < f -> is_index f -> is_index fd -> 0 <= K ->
  let ka := to_index (round_up_to_alignment K kAlign) in
  let T := f * ka * fd * 2 in
  Initialize rt "ffm" loss f fd K this w =
  (if T <? index_modulus
   then Ok (model_of "ffm" loss f fd K T (ffm_layout rt f fd K))
   else Err OutOfBounds,
   allocated (PosixMemalign kAlignByte (to_index T * 4)) w).
Proof.
  intros Hloss Hfeat Hf Hfd HK ka T.
  destruct (padded_index K) as [[Hka0 Hka1] Hkam]. fold ka in Hka0, Hka1, Hkam.
  destruct Hf as [Hf0 Hf1]. destruct Hfd as [Hfd0 Hfd1].
  pass_checks Hloss Hfeat Hfd0 HK.
  unfold get_aligned_k; cbn [num_K_]. fold ka.
  rewrite index_mul_chain. fold T.
  rewrite Initialize_w_ffm;
    unfold with_param_num_w_;
    cbn [score_func_ num_feat_ num_field_ num_K_ param_num_w_];
    [|reflexivity|split; assumption|split; assumption].
  unfold get_aligned_k; cbn [num_K_]. fold ka.
  pose proof (ffm_slots_eq f fd ka ltac:(lia) Hfd0 Hka0 Hkam) as Hslots.
  fold T in Hslots.
  assert (HT : 0 <= T) by lia.
  destruct (Z.ltb_spec T index_modulus) as [Hfit|Hover].
  - rewrite to_index_small by (split; assumption).
    destruct (Nat.leb_spec (ffm_slots f fd ka) (Z.to_nat T)) as [_|Hbad]; [|lia].
    f_equal. f_equal. unfold with_param_w_, model_of.
    cbn [score_func_ loss_func_ num_feat_ num_field_ num_K_ param_num_w_].
    f_equal.
    rewrite drop_ge by (rewrite length_replicate; lia).
    apply app_nil_r.
  - pose proof (to_index_range T) as [_ Hr].
    destruct (Nat.leb_spec (ffm_slots f fd ka) (Z.to_nat (to_index T))) as [Hbad|_];
      [lia|reflexivity].
Qed.

(** ** Files *)

Lemma OpenFileOrDie_write (name : string) (w : World) :
  OpenFileOrDie name "w" w =
  (Ok (Some {| path := name; position := 0 |}), written name [] w).
Proof. reflexivity. Qed.

Lemma OpenFileOrDie_read (name : string) (content : list byte) (w : World) :
  disk w !! name = Some content ->
  OpenFileOrDie name "r" w = (Ok (Some {| path := name; position := 0 |}), w).
Proof. intros H. unfold OpenFileOrDie. simpl. rewrite H. reflexivity. Qed.

Lemma WriteDataToDisk_written (pos : nat) (name : string) (old data : list byte)
    (w : World) :
  WriteDataToDisk {| path := name; position := pos |} data (written name old w) =
  (Ok tt, written name (old ++ data) w).
Proof.
  unfold WriteDataToDisk, written. simpl.
  rewrite lookup_insert_eq, insert_insert_eq. reflexivity.
Qed.

Lemma WriteStringToFile_written (pos : nat) (name : string) (old : list byte)
    (str : string) (w : World) :
  WriteStringToFile {| path := name; position := pos |} str (written name old w) =
  (Ok tt, written name (old ++ label_bytes str) w).
Proof.
  unfold WriteStringToFile, bind, label_bytes.
  rewrite !WriteDataToDisk_written. rewrite <- app_assoc. reflexivity.
Qed.

(** A read of the bytes [data] that stand at the position of the file. *)
Lemma ReadDataFromDisk_at (name : string) (pre data post : list byte) (w : World) :
  disk w !! name = Some (pre ++ data ++ post) ->
  ReadDataFromDisk {| path := name; position := length pre |} (length data) w =
  (Ok (data, {| path := name; position := length (pre ++ data) |}), w).
Proof.
  intros H. unfold ReadDataFromDisk. simpl. rewrite H.
  rewrite drop_app_length.
  replace (length data <=? length (data ++ post))%nat with true
    by (symmetry; apply Nat.leb_le; rewrite length_app; lia).
  rewrite take_app_length, length_app. reflexivity.
Qed.

Lemma index_t_bytes_length (z : Z) : length (index_t_bytes z) = sizeof_index_t.
Proof. apply length_le_split. Qed.

Lemma index_t_bytes_value (z : Z) : is_index z -> le_combine (index_t_bytes z) = z.
Proof.
  intros H. unfold index_t_bytes. rewrite le_combine_split.
  apply Z.mod_small. exact H.
Qed.

Lemma read_index_t_at (name : string) (pre post : list byte) (z : Z) (w : World) :
  is_index z ->
  disk w !! name = Some (pre ++ index_t_bytes z ++ post) ->
  read_index_t {| path := name; position := length pre |} w =
  (Ok (z, {| path := name; position := length (pre ++ index_t_bytes z) |}), w).
Proof.
  intros Hz H. unfold read_index_t, bind.
  rewrite <- (index_t_bytes_length z).
  rewrite (ReadDataFromDisk_at name pre (index_t_bytes z) post w H).
  unfold ret. rewrite index_t_bytes_value by exact Hz. reflexivity.
Qed.

Lemma ReadStringFromFile_at (name : string) (pre post : list byte) (str : string)
    (w : World) :
  short_label str ->
  disk w !! name = Some (pre ++ label_bytes str ++ post) ->
  ReadStringFromFile {| path := name; position := length pre |} w =
  (Ok (str, {| path := name; position := length (pre ++ label_bytes str) |}), w).
Proof.
  intros Hshort H. unfold ReadStringFromFile, bind, label_bytes in *.
  rewrite <- app_assoc in H.
  assert (Hlen : sizeof_size_t =
                 length (size_t_bytes (length (list_byte_of_string str))))
    by (symmetry; apply length_le_split).
  rewrite Hlen at 1.
  rewrite (ReadDataFromDisk_at name pre _ _ w H).
  assert (Hval : Z.to_nat (le_combine (size_t_bytes (length (list_byte_of_string str))))
                 = length (list_byte_of_string str)).
  { unfold size_t_bytes. rewrite le_combine_split.
    rewrite Z.mod_small; [apply Nat2Z.id|].
    unfold short_label in Hshort. split; [lia|exact Hshort]. }
  rewrite Hval.
  rewrite app_assoc in H.
  rewrite (ReadDataFromDisk_at name _ _ _ w H).
  unfold ret. rewrite string_of_list_byte_of_string.
  rewrite app_assoc. reflexivity.
Qed.

(** The values behind the bytes. *)
Lemma values_bytes_length (values : list real_t) :
  length (values_bytes values) = (sizeof_real_t * length values)%nat.
Proof.
  induction values as [|r values IH]; [reflexivity|].
  unfold values_bytes in *. simpl. rewrite IH. simpl. lia.
Qed.

Lemma buffer_of_values_bytes (values : list real_t) :
  buffer_of_bytes (length values) (values_bytes values) = map Some values.
Proof.
  induction values as [|r values IH]; [reflexivity|].
  destruct r as [a b c d]. unfold values_bytes in *. simpl.
  f_equal. exact IH.
Qed.

Lemma buffer_bytes_values (values : list real_t) :
  buffer_bytes (length values) (map Some values) = Ok (values_bytes values).
Proof.
  induction values as [|r values IH]; [reflexivity|].
  simpl. rewrite IH. reflexivity.
Qed.

(** ** The checkpoint *)

Lemma Serialize_spec (filename : string) (m : Model) (values : list real_t)
    (w : World) :
  filename <> ""%string ->
  param_w_ m = map Some values ->
  Z.to_nat (param_num_w_ m) = length values ->
  Serialize filename m w =
  (Ok tt,
   written filename
     (checkpoint_bytes (score_func_ m) (loss_func_ m) (num_feat_ m)
        (num_field_ m) (num_K_ m) (param_num_w_ m) values) w).
Proof.
  intros Hname Hbuf Hlen. unfold Serialize, CHECK.
  rewrite (nonempty_eqb _ Hname). cbn [negb].
  unfold bind at 1. cbn [ret].
  unfold bind at 1. rewrite OpenFileOrDie_write.
  unfold bind at 1. rewrite WriteStringToFile_written.
  unfold bind at 1. rewrite WriteStringToFile_written.
  unfold bind at 1. rewrite WriteDataToDisk_written.
  unfold bind at 1. rewrite WriteDataToDisk_written.
  unfold bind at 1. rewrite WriteDataToDisk_written.
  unfold serialize_w.
  unfold bind at 1. unfold bind at 1. rewrite WriteDataToDisk_written.
  unfold bind at 1. unfold lift.
  rewrite Hbuf, Hlen, buffer_bytes_values.
  rewrite WriteDataToDisk_written.
  unfold Close, ret. f_equal. f_equal.
  unfold checkpoint_bytes, header_bytes.
  rewrite <- !app_assoc. reflexivity.
Qed.

(** The file [name] holds [pre ++ data ++ post]. *)
Ltac file_holds H name pre data post :=
  let Hnew := fresh "Hfile" in
  assert (Hnew : disk _ !! name = Some (pre ++ data ++ post))
    by (rewrite H; unfold checkpoint_bytes, header_bytes;
        rewrite <- ?app_assoc; reflexivity).

Lemma Deserialize_spec (rt : Runtime) (filename : string) (this : Model)
    (w : World) (score loss : string) (f fd K n : Z) (values : list real_t)
    (rest : list byte) :
  filename <> ""%string ->
  short_label score -> short_label loss ->
  is_index f -> is_index fd -> is_index K -> is_index n ->
  (known_score score = true -> Z.to_nat n = length values) ->
  disk w !! filename =
    Some (checkpoint_bytes score loss f fd K n values ++ rest) ->
  Deserialize rt filename this w =
  if known_score score
  then (Ok (true, model_of score loss f fd K n (map Some values)),
        allocated (allocation_of score n) w)
  else (Err (LogFatal (unknown_score score)), w).
Proof.
  intros Hname Hscore Hloss Hf Hfd HK Hn Hlen Hfile.
  unfold Deserialize, CHECK.
  rewrite (nonempty_eqb _ Hname). cbn [negb].
  unfold bind at 1. cbn [ret].
  unfold bind at 1. rewrite (OpenFileOrDie_read _ _ _ Hfile).
  set (post5 := index_t_bytes n ++ values_bytes values ++ rest).
  set (post4 := index_t_bytes K ++ post5).
  set (post3 := index_t_bytes fd ++ post4).
  set (post2 := index_t_bytes f ++ post3).
  set (post1 := label_bytes loss ++ post2).
  change 0%nat with (length (@nil byte)).
  file_holds Hfile filename (@nil byte) (label_bytes score) post1.
  unfold bind at 1. rewrite (ReadStringFromFile_at _ _ _ _ _ Hscore Hfile0).
  file_holds Hfile filename ([] ++ label_bytes score) (label_bytes loss) post2.
  unfold bind at 1. rewrite (ReadStringFromFile_at _ _ _ _ _ Hloss Hfile1).
  file_holds Hfile filename (([] ++ label_bytes score) ++ label_bytes loss)
    (index_t_bytes f) post3.
  unfold bind at 1. rewrite (read_index_t_at _ _ _ _ _ Hf Hfile2).
  file_holds Hfile filename
    ((([] ++ label_bytes score) ++ label_bytes loss) ++ index_t_bytes f)
    (index_t_bytes fd) post4.
  unfold bind at 1. rewrite (read_index_t_at _ _ _ _ _ Hfd Hfile3).
  file_holds Hfile filename
    (((([] ++ label_bytes score) ++ label_bytes loss) ++ index_t_bytes f)
       ++ index_t_bytes fd)
    (index_t_bytes K) post5.
  unfold bind at 1. rewrite (read_index_t_at _ _ _ _ _ HK Hfile4).
  file_holds Hfile filename
    ((((([] ++ label_bytes score) ++ label_bytes loss) ++ index_t_bytes f)
        ++ index_t_bytes fd) ++ index_t_bytes K)
    (index_t_bytes n) (values_bytes values ++ rest).
  unfold deserialize_w.
  unfold bind at 1. unfold bind at 1.
  rewrite (read_index_t_at _ _ _ _ _ Hn Hfile5).
  unfold bind at 1. rewrite Initialize_w_unset.
  unfold with_param_num_w_; cbn [score_func_ param_num_w_].
  destruct (known_score score) eqn:Hknown; [|reflexivity].
  unfold with_param_w_;
    cbn [score_func_ loss_func_ num_feat_ num_field_ num_K_ param_num_w_ param_w_].
  specialize (Hlen eq_refl).
  assert (Hfile6 : disk (allocated (allocation_of score n) w) !! filename =
                   Some ((((((([] ++ label_bytes score) ++ label_bytes loss)
                              ++ index_t_bytes f) ++ index_t_bytes fd)
                            ++ index_t_bytes K) ++ index_t_bytes n)
                         ++ values_bytes values ++ rest))
    by (unfold allocated; cbn [disk]; rewrite Hfile5; f_equal;
        rewrite <- !app_assoc; reflexivity).
  unfold bind at 1.
  replace (sizeof_real_t * Z.to_nat n)%nat with (length (values_bytes values))
    by (rewrite values_bytes_length, Hlen; reflexivity).
  rewrite (ReadDataFromDisk_at _ _ _ _ _ Hfile6).
  cbn [ret]. unfold bind at 1. unfold Close, ret.
  rewrite Hlen, buffer_of_values_bytes. reflexivity.
Qed.

(** ** Every slot of a layout holds a value *)

Lemma lay_out_values {G : Type} (piece : Z -> G -> list slot * G) (step : Z)
    (n : nat) (i : Z) (g : G) :
  (forall i g, exists vs, fst (piece i g) = map Some vs) ->
  exists vs, fst (lay_out piece step n i g) = map Some vs.
Proof.
  intros Hpiece. revert i g. induction n as [|n IH]; intros i g.
  - exists []. reflexivity.
  - simpl. destruct (Hpiece i g) as [vs Hvs].
    destruct (piece i g) as [l g']. simpl in Hvs.
    destruct (IH (i + step) g') as [vs' Hvs'].
    destruct (lay_out piece step n (i + step) g') as [ls g''].
    simpl in *. exists (vs ++ vs'). rewrite map_app. congruence.
Qed.

Lemma half_double (n : Z) :
  0 <= n -> Z.even n = true -> (Z.to_nat (n / 2) * 2)%nat = Z.to_nat n.
Proof.
  intros Hn He. apply Z.even_spec in He. destruct He as [h Hh].
  subst n. rewrite Z.mul_comm, Z.div_mul by lia. lia.
Qed.

Lemma linear_layout_length (n : Z) :
  0 <= n -> Z.even n = true -> length (linear_layout n) = Z.to_nat n.
Proof.
  intros Hn He. unfold linear_layout.
  rewrite (lay_out_length linear_pair 2 2) by reflexivity.
  apply half_double; assumption.
Qed.

Lemma linear_layout_values (n : Z) :
  exists vs, linear_layout n = map Some vs.
Proof.
  apply lay_out_values. intros i g.
  exists [real_zero; real_one]. reflexivity.
Qed.

Lemma fm_pair_length (rt : Runtime) (K i : Z) (g : engine rt) :
  length (fst (fm_pair rt K i g)) = 2%nat.
Proof. unfold fm_pair. destruct (dis rt g). reflexivity. Qed.

Lemma fm_layout_length (rt : Runtime) (K n : Z) :
  0 <= n -> Z.even n = true -> length (fm_layout rt K n) = Z.to_nat n.
Proof.
  intros Hn He. unfold fm_layout.
  rewrite (lay_out_length (fm_pair rt K) 2 2) by apply fm_pair_length.
  apply half_double; assumption.
Qed.

Lemma fm_layout_values (rt : Runtime) (K n : Z) :
  exists vs, fm_layout rt K n = map Some vs.
Proof.
  apply lay_out_values. intros i g. unfold fm_pair.
  destruct (dis rt g) as [x g'].
  exists [real_mul rt (inv_sqrt rt K) x; real_one]. reflexivity.
Qed.

Lemma ffm_layout_length (rt : Runtime) (f fd K : Z) :
  length (ffm_layout rt f fd K) =
  ffm_slots f fd (to_index (round_up_to_alignment K kAlign)).
Proof.
  unfold ffm_layout, ffm_slots.
  apply lay_out_length. intros i g. apply ffm_feature_length.
Qed.

Lemma ffm_layout_values (rt : Runtime) (f fd K : Z) :
  exists vs, ffm_layout rt f fd K = map Some vs.
Proof.
  apply lay_out_values. intros j g.
  apply lay_out_values. intros b g'.
  apply lay_out_values. intros d g''.
  unfold ffm_chunk.
  destruct (ffm_weight rt K _ d g'') as [x0 g0].
  destruct (ffm_weight rt K _ (d + 1) g0) as [x1 g1].
  destruct (ffm_weight rt K _ (d + 2) g1) as [x2 g2].
  destruct (ffm_weight rt K _ (d + 3) g2) as [x3 g3].
  exists [x0; x1; x2; x3; real_one; real_one; real_one; real_one].
  reflexivity.
Qed.

(** ** The pairs of "linear" and "fm" *)

Lemma linear_layout_pair (n i : Z) :
  0 <= i -> 2 * i + 1 < n ->
  linear_layout n !! Z.to_nat (2 * i) = Some (Some real_zero) /\
  linear_layout n !! Z.to_nat (2 * i + 1) = Some (Some real_one).
Proof.
  intros Hi Hn. unfold linear_layout.
  assert (Hq : (Z.to_nat i < Z.to_nat (n / 2))%nat).
  { assert (i + 1 <= n / 2) by (apply Z.div_le_lower_bound; lia). lia. }
  replace (Z.to_nat (2 * i)) with (Z.to_nat i * 2 + 0)%nat by lia.
  replace (Z.to_nat (2 * i + 1)) with (Z.to_nat i * 2 + 1)%nat by lia.
  rewrite !(lay_out_lookup linear_pair 2 2) by (reflexivity || lia).
  split; reflexivity.
Qed.

Lemma lay_out_fm_engine (rt : Runtime) (K : Z) (q : nat) (i : Z) (g : engine rt) :
  snd (lay_out (fm_pair rt K) 2 q i g) = engine_after rt q g.
Proof.
  revert i g. induction q as [|q IH]; intros i g; [reflexivity|].
  simpl. unfold fm_pair at 1. destruct (dis rt g) as [x g'] eqn:Hd.
  specialize (IH (i + 2) g').
  destruct (lay_out (fm_pair rt K) 2 q (i + 2) g') as [ls g''].
  simpl in *. exact IH.
Qed.

Lemma fm_layout_pair (rt : Runtime) (K n i : Z) :
  0 <= i -> 2 * i + 1 < n ->
  fm_layout rt K n !! Z.to_nat (2 * i) =
    Some (Some (real_mul rt (inv_sqrt rt K) (nth_draw rt (Z.to_nat i)))) /\
  fm_layout rt K n !! Z.to_nat (2 * i + 1) = Some (Some real_one).
Proof.
  intros Hi Hn. unfold fm_layout.
  assert (Hq : (Z.to_nat i < Z.to_nat (n / 2))%nat).
  { assert (i + 1 <= n / 2) by (apply Z.div_le_lower_bound; lia). lia. }
  replace (Z.to_nat (2 * i)) with (Z.to_nat i * 2 + 0)%nat by lia.
  replace (Z.to_nat (2 * i + 1)) with (Z.to_nat i * 2 + 1)%nat by lia.
  rewrite !(lay_out_lookup (fm_pair rt K) 2 2)
    by (apply fm_pair_length || lia).
  rewrite lay_out_fm_engine. unfold fm_pair, nth_draw.
  destruct (dis rt (engine_after rt (Z.to_nat i) (default_engine rt))) as [x g'].
  split; reflexivity.
Qed.

(** ** The chunks of "ffm" *)

Lemma ffm_weight_padding (rt : Runtime) (K : Z) (coef : real_t) (d : Z)
    (g : engine rt) :
  K <= d -> ffm_weight rt K coef d g = (real_zero, g).
Proof.
  intros H. unfold ffm_weight.
  replace (d <? K) with false by (symmetry; apply Z.ltb_ge; lia).
  reflexivity.
Qed.

(** In a chunk, weight [s] stands at offset [s] and its accumulator, 1.0,
    [kAlign] slots further; a weight of the padding is 0. *)
Lemma ffm_chunk_slot (rt : Runtime) (K : Z) (coef : real_t) (d : Z)
    (g : engine rt) (s : nat) :
  (s < 4)%nat ->
  exists x,
    fst (ffm_chunk rt K coef d g) !! s = Some (Some x) /\
    (K <= d + Z.of_nat s -> x = real_zero) /\
    fst (ffm_chunk rt K coef d g) !! (s + 4)%nat = Some (Some real_one).
Proof.
  intros Hs. unfold ffm_chunk.
  destruct (ffm_weight rt K coef d g) as [x0 g0] eqn:H0.
  destruct (ffm_weight rt K coef (d + 1) g0) as [x1 g1] eqn:H1.
  destruct (ffm_weight rt K coef (d + 2) g1) as [x2 g2] eqn:H2.
  destruct (ffm_weight rt K coef (d + 3) g2) as [x3 g3] eqn:H3.
  destruct s as [|[|[|[|s]]]]; [| | | |lia]; cbn [fst lookup list_lookup Nat.add].
  - exists x0. repeat split. intros HK.
    rewrite ffm_weight_padding in H0 by lia. congruence.
  - exists x1. repeat split. intros HK.
    rewrite ffm_weight_padding in H1 by lia. congruence.
  - exists x2. repeat split. intros HK.
    rewrite ffm_weight_padding in H2 by lia. congruence.
  - exists x3. repeat split. intros HK.
    rewrite ffm_weight_padding in H3 by lia. congruence.
Qed.

(** Slot [s] of chunk [c] of the block of feature [j] and field [f]. *)
Lemma ffm_layout_chunk (rt : Runtime) (F fd K : Z) (j f c s : nat) :
  let ka := to_index (round_up_to_alignment K kAlign) in
  (j < Z.to_nat F)%nat -> (f < Z.to_nat fd)%nat ->
  (c < Z.to_nat (ka / kAlign))%nat -> (s < 8)%nat ->
  exists g,
    ffm_layout rt F fd K
      !! (j * feature_slots fd ka + (f * block_slots ka + (c * 8 + s)))%nat =
    fst (ffm_chunk rt K (inv_sqrt rt K) (kAlign * Z.of_nat c) g) !! s.
Proof.
  intros ka Hj Hf Hc Hs. unfold ffm_layout. fold ka.
  assert (Hblock : (c * 8 + s < block_slots ka)%nat)
    by (unfold block_slots; nia).
  assert (Hfeature : (f * block_slots ka + (c * 8 + s) < feature_slots fd ka)%nat)
    by (unfold feature_slots; nia).
  rewrite (lay_out_lookup _ 1 (feature_slots fd ka))
    by (try apply ffm_feature_length; assumption).
  unfold ffm_feature at 1.
  rewrite (lay_out_lookup _ 1 (block_slots ka))
    by (try apply ffm_block_length; assumption).
  unfold ffm_block at 1.
  rewrite (lay_out_lookup _ kAlign 8%nat)
    by (try apply ffm_chunk_length; assumption).
  eexists. rewrite Z.add_0_l. reflexivity.
Qed.

Lemma ffm_index_nat (fd ka j f d : Z) :
  0 <= fd -> 0 <= ka -> ka mod kAlign = 0 -> 0 <= j -> 0 <= f -> 0 <= d ->
  Z.to_nat (ffm_weight_index fd ka j f d) =
  (Z.to_nat j * feature_slots fd ka +
   (Z.to_nat f * block_slots ka +
    (Z.to_nat (d / kAlign) * 8 + Z.to_nat (d mod kAlign))))%nat.
Proof.
  intros Hfd Hka Hmod Hj Hf Hd.
  unfold ffm_weight_index, feature_slots, block_slots.
  pose proof (Z.div_mod ka kAlign ltac:(discriminate)) as Hdm.
  rewrite Hmod in Hdm.
  assert (0 <= ka / kAlign) by (apply Z.div_pos; [lia|reflexivity]).
  assert (0 <= d / kAlign) by (apply Z.div_pos; [lia|reflexivity]).
  pose proof (Z.mod_pos_bound d kAlign ltac:(reflexivity)) as Hs.
  apply Nat2Z.inj.
  rewrite Z2Nat.id by (unfold kAlign in *; nia).
  rewrite !Nat2Z.inj_add, !Nat2Z.inj_mul, !Z2Nat.id by lia.
  unfold kAlign in *. simpl Z.of_nat. nia.
Qed.

Lemma ffm_layout_slot (rt : Runtime) (F fd K j f d : Z) :
  let ka := to_index (round_up_to_alignment K kAlign) in
  0 <= j < F -> 0 <= f < fd -> 0 <= d < ka ->
  exists x,
    ffm_layout rt F fd K !! Z.to_nat (ffm_weight_index fd ka j f d) =
      Some (Some x) /\
    (K <= d -> x = real_zero) /\
    ffm_layout rt F fd K !! Z.to_nat (ffm_accumulator_index fd ka j f d) =
      Some (Some real_one).
Proof.
  intros ka Hj Hf Hd.
  destruct (padded_index K) as [[Hka0 Hka1] Hkam]. fold ka in Hka0, Hka1, Hkam.
  pose proof (Z.div_mod ka kAlign ltac:(discriminate)) as Hdm.
  rewrite Hkam in Hdm.
  pose proof (Z.div_mod d kAlign ltac:(discriminate)) as Hdd.
  pose proof (Z.mod_pos_bound d kAlign ltac:(reflexivity)) as Hs.
  assert (Hc0 : 0 <= d / kAlign) by (apply Z.div_pos; [lia|reflexivity]).
  assert (Hc : d / kAlign < ka / kAlign)
    by (apply Z.div_lt_upper_bound; [reflexivity|lia]).
  destruct (ffm_layout_chunk rt F fd K (Z.to_nat j) (Z.to_nat f)
              (Z.to_nat (d / kAlign)) (Z.to_nat (d mod kAlign)))
    as [g Hw]; try (fold ka; unfold kAlign in *; lia).
  destruct (ffm_layout_chunk rt F fd K (Z.to_nat j) (Z.to_nat f)
              (Z.to_nat (d / kAlign)) (Z.to_nat (d mod kAlign) + 4))
    as [g' Ha]; try (fold ka; unfold kAlign in *; lia).
  fold ka in Hw, Ha.
  destruct (ffm_chunk_slot rt K (inv_sqrt rt K) (kAlign * Z.of_nat (Z.to_nat (d / kAlign)))
              g (Z.to_nat (d mod kAlign))) as [x [Hx [Hpad _]]];
    [unfold kAlign in *; lia|].
  destruct (ffm_chunk_slot rt K (inv_sqrt rt K) (kAlign * Z.of_nat (Z.to_nat (d / kAlign)))
              g' (Z.to_nat (d mod kAlign))) as [x' [_ [_ Hone]]];
    [unfold kAlign in *; lia|].
  exists x. split; [|split].
  - rewrite ffm_index_nat by lia. rewrite Hw. exact Hx.
  - intros HK. apply Hpad. rewrite !Z2Nat.id by lia. lia.
  - unfold ffm_accumulator_index.
    replace (Z.to_nat (ffm_weight_index fd ka j f d + kAlign))
      with (Z.to_nat (ffm_weight_index fd ka j f d) + 4)%nat.
    + rewrite ffm_index_nat by lia.
      replace (Z.to_nat j * feature_slots fd ka +
               (Z.to_nat f * block_slots ka +
                (Z.to_nat (d / kAlign) * 8 + Z.to_nat (d mod kAlign))) + 4)%nat
        with (Z.to_nat j * feature_slots fd ka +
              (Z.to_nat f * block_slots ka +
               (Z.to_nat (d / kAlign) * 8 + (Z.to_nat (d mod kAlign) + 4))))%nat
        by lia.
      rewrite Ha. exact Hone.
    + assert (0 <= ffm_weight_index fd ka j f d).
      { unfold ffm_weight_index.
        repeat apply Z.add_nonneg_nonneg; try apply Z.mul_nonneg_nonneg;
          try apply Z.add_nonneg_nonneg; try apply Z.mul_nonneg_nonneg;
          unfold kAlign in *; lia. }
      unfold kAlign. lia.
Qed.

(** ** What a successful Initialize tells *)

Lemma known_score_cases (score : string) :
  known_score score = true ->
  score = "linear"%string \/ score = "fm"%string \/ score = "ffm"%string.
Proof.
  unfold known_score. intros H.
  destruct (score =? "linear")%string eqn:H1;
    [left; apply String.eqb_eq; exact H1|].
  destruct (score =? "fm")%string eqn:H2;
    [right; left; apply String.eqb_eq; exact H2|].
  destruct (score =? "ffm")%string eqn:H3;
    [right; right; apply String.eqb_eq; exact H3|].
  discriminate.
Qed.

Lemma Initialize_inv (rt : Runtime) (score loss : string) (f fd K : Z)
    (this : Model) (w : World) (m : Model) (w' : World) :
  Initialize rt score loss f fd K this w = (Ok m, w') ->
  score <> ""%string /\ loss <> ""%string /\ 0 < f /\ 0 <= fd /\ 0 <= K /\
  known_score score = true.
Proof.
  unfold Initialize, CHECK. intros H.
  destruct (score =? "")%string eqn:Hs; [discriminate H|].
  destruct (loss =? "")%string eqn:Hl; [discriminate H|].
  destruct (0 <? f) eqn:Hf; [|discriminate H].
  destruct (0 <=? fd) eqn:Hfd; [|discriminate H].
  destruct (0 <=? K) eqn:HK; [|discriminate H].
  cbn [negb] in H. unfold bind at 1 2 3 4 5 in H. cbn [ret] in H.
  unfold bind at 1 in H.
  destruct (count_parameters score f _ fd K) as [n|] eqn:Hn;
    [|discriminate H].
  repeat split.
  - apply String.eqb_neq. exact Hs.
  - apply String.eqb_neq. exact Hl.
  - apply Z.ltb_lt. exact Hf.
  - apply Z.leb_le. exact Hfd.
  - apply Z.leb_le. exact HK.
  - unfold count_parameters in Hn. unfold known_score.
    destruct (score =? "linear")%string; [reflexivity|].
    destruct (score =? "fm")%string; [reflexivity|].
    destruct (score =? "ffm")%string; [reflexivity|discriminate Hn].
Qed.

Lemma fits_padded (f fd K : Z) :
  0 < f -> 0 <= fd -> 0 <= K ->
  f * round_up_to_alignment K kAlign * fd * 2 < index_modulus ->
  f * to_index (round_up_to_alignment K kAlign) * fd * 2 =
  f * round_up_to_alignment K kAlign * fd * 2.
Proof.
  intros Hf Hfd HK Hfit.
  pose proof (round_up_nonneg K kAlign ltac:(reflexivity) HK) as HR.
  destruct (Z.eq_dec fd 0) as [->|Hne]; [lia|].
  rewrite to_index_small; [reflexivity|].
  split; [exact HR|].
  assert (H1 : 1 <= f * fd) by nia.
  assert (H2 : round_up_to_alignment K kAlign * 1 <=
               round_up_to_alignment K kAlign * (f * fd))
    by (apply Z.mul_le_mono_nonneg_l; assumption).
  replace (f * round_up_to_alignment K kAlign * fd * 2)
    with (round_up_to_alignment K kAlign * (f * fd) * 2) in Hfit by ring.
  lia.
Qed.

(** A fresh model is one of the three below. *)
Lemma Initialize_fresh (rt : Runtime) (score loss : string) (f fd K : Z)
    (this : Model) (w : World) (m : Model) (w' : World) :
  is_index f -> is_index fd ->
  Initialize rt score loss f fd K this w = (Ok m, w') ->
  exists n values,
    m = model_of score loss f fd K n (map Some values) /\
    is_index n /\ Z.to_nat n = length values /\
    slot_count score f fd K = Some n /\
    w' = allocated (allocation_of score n) w.
Proof.
  intros Hf Hfd H.
  destruct (Initialize_inv _ _ _ _ _ _ _ _ _ _ H)
    as (_ & Hloss & Hfeat & Hfield & HK & Hknown).
  destruct (known_score_cases _ Hknown) as [->|[->| ->]].
  - rewrite Initialize_linear in H by assumption.
    injection H as <- <-.
    destruct (linear_layout_values (index_mul f 2)) as [vs Hvs].
    pose proof (index_mul_range f 2) as Hr.
    exists (index_mul f 2), vs. rewrite Hvs. repeat split; try apply Hr.
    rewrite <- (length_map Some vs), <- Hvs.
    symmetry. apply linear_layout_length; [apply Hr|apply to_index_double_even].
  - rewrite Initialize_fm in H by assumption.
    injection H as <- <-.
    destruct (fm_layout_values rt K (index_mul (index_mul f K) 2)) as [vs Hvs].
    pose proof (index_mul_range (index_mul f K) 2) as Hr.
    exists (index_mul (index_mul f K) 2), vs. rewrite Hvs.
    repeat split; try apply Hr.
    rewrite <- (length_map Some vs), <- Hvs.
    symmetry. apply fm_layout_length; [apply Hr|apply to_index_double_even].
  - rewrite Initialize_ffm in H by assumption. cbv zeta in H.
    destruct (padded_index K) as [[Hka0 Hka1] Hkam].
    set (ka := to_index (round_up_to_alignment K kAlign)) in *.
    set (T := f * ka * fd * 2) in *.
    assert (HT : 0 <= T) by (destruct Hf, Hfd; unfold T; nia).
    destruct (Z.ltb_spec T index_modulus) as [Hfit|Hover]; [|discriminate H].
    injection H as <- <-.
    destruct (ffm_layout_values rt f fd K) as [vs Hvs].
    exists T, vs. rewrite Hvs. repeat split; try assumption.
    + rewrite <- (length_map Some vs), <- Hvs.
      rewrite ffm_layout_length. fold ka.
      destruct Hf, Hfd.
      pose proof (ffm_slots_eq f fd ka ltac:(lia) ltac:(lia) Hka0 Hkam) as Hslots.
      fold T in Hslots. lia.
    + unfold slot_count, count_parameters. cbn [String.eqb Ascii.eqb Bool.eqb].
      fold ka. rewrite index_mul_chain. fold T.
      rewrite to_index_small by (split; assumption). reflexivity.
    + rewrite to_index_small by (split; assumption). reflexivity.
Qed.

(** ** The scenarios of the spec, run on the GNU instance *)

(** Scenario A: "linear" with 3 features has 6 slots, weights 0 and
    accumulators 1.0. *)
Example scenario_A :
  Initialize Gnu.runtime "linear" "logloss" 3 0 0 blank initial_world =
  (Ok (model_of "linear" "logloss" 3 0 0 6
         [Some real_zero; Some real_one; Some real_zero; Some real_one;
          Some real_zero; Some real_one]),
   allocated (Malloc 24) initial_world).
Proof. vm_compute. reflexivity. Qed.

(** Scenario B: "fm" with 2 features and 4 factors has 16 slots and every
    weight lies between 0 and 0.5. *)
Example scenario_B :
  exists m w',
    Initialize Gnu.runtime "fm" "logloss" 2 0 4 blank initial_world = (Ok m, w') /\
    param_num_w_ m = 16 /\
    length (pair_weights (param_w_ m)) = 8%nat /\
    forallb (fun x =>
               SpecFloat.SFleb (SpecFloat.S754_zero false) x &&
               SpecFloat.SFleb x (Gnu.float_of (Gnu.one_over_sqrt 4)))
            (pair_weights (param_w_ m)) = true.
Proof. do 2 eexists. split; [vm_compute; reflexivity|]. vm_compute. auto. Qed.

(** Scenario C: "ffm" with 2 features, 2 fields and 3 factors has factors
    padded to 4, 32 slots, and a weight 0 in the fourth place of each of
    its four blocks. *)
Example scenario_C :
  exists m w',
    Initialize Gnu.runtime "ffm" "logloss" 2 2 3 blank initial_world = (Ok m, w') /\
    get_aligned_k m = 4 /\ param_num_w_ m = 32 /\
    (fun j => param_w_ m !! j) <$> [3; 11; 19; 27]%nat =
      [Some (Some real_zero); Some (Some real_zero);
       Some (Some real_zero); Some (Some real_zero)].
Proof. do 2 eexists. split; [vm_compute; reflexivity|]. vm_compute. auto. Qed.

(** * The claims *)

Lemma spec_slot_count_known (score : string) (f fd K e : Z) :
  spec_slot_count score f fd K = Some e ->
  (score = "linear"%string /\ e = f * 2) \/
  (score = "fm"%string /\ e = f * K * 2) \/
  (score = "ffm"%string /\ e = f * round_up_to_alignment K kAlign * fd * 2).
Proof.
  unfold spec_slot_count. intros H.
  destruct (score =? "linear")%string eqn:H1.
  { left. apply String.eqb_eq in H1. split; congruence. }
  destruct (score =? "fm")%string eqn:H2.
  { right. left. apply String.eqb_eq in H2. split; congruence. }
  destruct (score =? "ffm")%string eqn:H3; [|discriminate].
  right. right. apply String.eqb_eq in H3. split; congruence.
Qed.

(** The count the code computes is the formula of the spec reduced modulo
    2^32. *)
Lemma slot_count_modulo (score : string) (f fd K n e : Z) :
  slot_count score f fd K = Some n ->
  spec_slot_count score f fd K = Some e ->
  n = to_index e.
Proof.
  intros Hn He.
  destruct (spec_slot_count_known _ _ _ _ _ He) as [[-> ->]|[[-> ->]|[-> ->]]];
    unfold slot_count, count_parameters in Hn;
    cbn [String.eqb Ascii.eqb Bool.eqb] in Hn; injection Hn as <-.
  - reflexivity.
  - unfold index_mul. apply to_index_mul_l.
  - rewrite index_mul_chain.
    replace (f * to_index (round_up_to_alignment K kAlign) * fd * 2)
      with (to_index (round_up_to_alignment K kAlign) * (f * fd * 2)) by ring.
    rewrite to_index_mul_l. f_equal. ring.
Qed.

(** C1, as amended. For every featureCount > 0 the slot count computed at
    fresh construction equals the formula of the spec (features x 2,
    features x factors x 2, features x paddedFactors x fields x 2,
    paddedFactors being the factor count rounded up to the alignment
    width) reduced modulo 2^32, the range of an [index_t]; so it equals the
    formula whenever the formula stays below 2^32, and then fresh
    construction succeeds. *)
Theorem slot_count_of_fresh_model (rt : Runtime) (score loss : string)
    (f fd K e : Z) (this : Model) (w : World) :
  0 < f -> is_index f -> is_index fd -> is_index K ->
  spec_slot_count score f fd K = Some e ->
  (forall m w',
     Initialize rt score loss f fd K this w = (Ok m, w') ->
     param_num_w_ m = to_index e) /\
  (loss <> ""%string -> e < index_modulus ->
   exists m w',
     Initialize rt score loss f fd K this w = (Ok m, w') /\
     param_num_w_ m = e).
Proof.
  intros Hfeat Hf Hfd HK Hspec. split.
  - intros m w' Hm.
    destruct (Initialize_fresh _ _ _ _ _ _ _ _ _ _ Hf Hfd Hm)
      as (n & vs & -> & _ & _ & Hn & _).
    cbn [param_num_w_ model_of].
    apply (slot_count_modulo _ _ _ _ _ _ Hn Hspec).
  - intros Hloss Hfit.
    destruct Hf as [Hf0 Hf1]. destruct Hfd as [Hfd0 Hfd1]. destruct HK as [HK0 HK1].
    destruct (spec_slot_count_known _ _ _ _ _ Hspec) as [[-> ->]|[[-> ->]|[-> ->]]].
    + rewrite Initialize_linear by assumption.
      eexists. eexists. split; [reflexivity|].
      cbn [param_num_w_ model_of]. apply to_index_small. split; lia.
    + rewrite Initialize_fm by assumption.
      eexists. eexists. split; [reflexivity|].
      cbn [param_num_w_ model_of]. unfold index_mul.
      rewrite to_index_mul_l. apply to_index_small. split; [nia|lia].
    + rewrite Initialize_ffm by (assumption || split; assumption). cbv zeta.
      rewrite fits_padded by assumption.
      replace (_ <? index_modulus) with true by (symmetry; apply Z.ltb_lt; exact Hfit).
      eexists. eexists. split; [reflexivity|]. reflexivity.
Qed.

Lemma slot_count_of_fresh_model_witness :
  exists m w',
    Initialize Gnu.runtime "ffm" "logloss" 2 2 3 blank initial_world = (Ok m, w') /\
    param_num_w_ m = 32.
Proof.
  assert (Hi : forall z, 0 <= z < 10 -> is_index z)
    by (intros z Hz; unfold is_index; rewrite index_modulus_eq; lia).
  apply (slot_count_of_fresh_model Gnu.runtime "ffm" "logloss" 2 2 3 32
           blank initial_world ltac:(lia)
           (Hi 2 ltac:(lia)) (Hi 2 ltac:(lia)) (Hi 3 ltac:(lia)) eq_refl).
  - discriminate.
  - reflexivity.
Defined.

(** C1 as stated fails: with 2^31 features the "linear" store is built and
    its slot count is 0, not 2^32. *)
Lemma slot_count_wraps_around :
  exists m w',
    Initialize Gnu.runtime "linear" "logloss" 2147483648 0 0 blank initial_world
      = (Ok m, w') /\
    0 < 2147483648 /\
    param_num_w_ m = 0 /\
    param_num_w_ m <> 2147483648 * 2.
Proof.
  rewrite Initialize_linear by (discriminate || lia).
  eexists. eexists. repeat split. discriminate.
Qed.

Lemma slot_count_even (score : string) (f fd K n : Z) :
  slot_count score f fd K = Some n -> Z.even n = true.
Proof.
  unfold slot_count, count_parameters, index_mul. intros H.
  destruct (score =? "linear")%string;
    [injection H as <-; apply to_index_double_even|].
  destruct (score =? "fm")%string;
    [injection H as <-; apply to_index_double_even|].
  destruct (score =? "ffm")%string;
    [injection H as <-; apply to_index_double_even|discriminate].
Qed.

(** The count the code computes against the formula of the spec: never
    above it, and equal to it when the formula stays in range. *)
Lemma slot_count_below_spec (score : string) (f fd K n e : Z) :
  0 < f -> 0 <= fd -> 0 <= K ->
  slot_count score f fd K = Some n ->
  spec_slot_count score f fd K = Some e ->
  n <= e /\ (e < index_modulus -> n = e).
Proof.
  intros Hf Hfd HK Hn He.
  pose proof (round_up_nonneg K kAlign ltac:(reflexivity) HK) as HR.
  destruct (spec_slot_count_known _ _ _ _ _ He) as [[-> ->]|[[-> ->]|[-> ->]]];
    unfold slot_count, count_parameters in Hn;
    cbn [String.eqb Ascii.eqb Bool.eqb] in Hn; injection Hn as <-.
  - split; [apply to_index_le; lia|].
    intros Hfit. apply to_index_small. split; lia.
  - unfold index_mul. rewrite to_index_mul_l.
    split; [apply to_index_le; nia|].
    intros Hfit. apply to_index_small. split; [nia|lia].
  - rewrite index_mul_chain. split.
    + pose proof (to_index_le (round_up_to_alignment K kAlign) HR) as Hle.
      pose proof (to_index_range (round_up_to_alignment K kAlign)) as [Hka _].
      etransitivity; [apply to_index_le; nia|].
      apply Z.mul_le_mono_nonneg_r; [lia|].
      apply Z.mul_le_mono_nonneg_r; [lia|].
      apply Z.mul_le_mono_nonneg_l; lia.
    + intros Hfit. rewrite fits_padded by assumption.
      apply to_index_small. split; [nia|lia].
Qed.

Lemma spec_slot_count_mono (score : string) (f fd K f' fd' K' e e' : Z) :
  0 <= f <= f' -> 0 <= fd <= fd' -> 0 <= K <= K' ->
  spec_slot_count score f fd K = Some e ->
  spec_slot_count score f' fd' K' = Some e' ->
  e <= e'.
Proof.
  intros Hf Hfd HK He He'.
  pose proof (round_up_nonneg K kAlign ltac:(reflexivity) ltac:(lia)) as HR.
  pose proof (round_up_mono K K' kAlign ltac:(reflexivity) ltac:(lia)) as HRR.
  destruct (spec_slot_count_known _ _ _ _ _ He) as [[-> ->]|[[-> ->]|[-> ->]]];
    unfold spec_slot_count in He';
    cbn [String.eqb Ascii.eqb Bool.eqb] in He'; injection He' as <-.
  - lia.
  - apply Z.mul_le_mono_nonneg_r; [lia|].
    apply Z.mul_le_mono_nonneg; lia.
  - apply Z.mul_le_mono_nonneg_r; [lia|].
    apply Z.mul_le_mono_nonneg;
      [apply Z.mul_nonneg_nonneg; lia|apply Z.mul_le_mono_nonneg; lia|lia|lia].
Qed.

Lemma spec_slot_count_some (score : string) (f fd K n : Z) :
  slot_count score f fd K = Some n ->
  exists e, spec_slot_count score f fd K = Some e.
Proof.
  unfold slot_count, count_parameters, spec_slot_count. intros H.
  destruct (score =? "linear")%string; [eexists; reflexivity|].
  destruct (score =? "fm")%string; [eexists; reflexivity|].
  destruct (score =? "ffm")%string; [eexists; reflexivity|discriminate].
Qed.

(** C9, as amended. For all three variants and all featureCount > 0 the
    slot count of a fresh store is even; and of two fresh stores of one
    variant, the second with dimensions at least those of the first and
    with a slot count that, by the formula of the spec, stays below 2^32,
    the second has at least as many slots as the first. *)
Theorem slot_count_even_and_monotone (rt : Runtime) (score loss loss' : string)
    (f fd K f' fd' K' : Z) (this this' m m' : Model) (w w' w1 w1' : World) (e' : Z) :
  is_index f -> is_index fd -> is_index f' -> is_index fd' ->
  Initialize rt score loss f fd K this w = (Ok m, w1) ->
  Initialize rt score loss' f' fd' K' this' w' = (Ok m', w1') ->
  Z.even (param_num_w_ m) = true /\
  (f <= f' -> fd <= fd' -> K <= K' ->
   spec_slot_count score f' fd' K' = Some e' -> e' < index_modulus ->
   param_num_w_ m <= param_num_w_ m').
Proof.
  intros Hf Hfd Hf' Hfd' H H'.
  destruct (Initialize_inv _ _ _ _ _ _ _ _ _ _ H) as (_ & _ & Hf0 & Hfd0 & HK0 & _).
  destruct (Initialize_inv _ _ _ _ _ _ _ _ _ _ H') as (_ & _ & Hf0' & Hfd0' & HK0' & _).
  destruct (Initialize_fresh _ _ _ _ _ _ _ _ _ _ Hf Hfd H)
    as (n & vs & -> & _ & _ & Hn & _).
  destruct (Initialize_fresh _ _ _ _ _ _ _ _ _ _ Hf' Hfd' H')
    as (n' & vs' & -> & _ & _ & Hn' & _).
  cbn [param_num_w_ model_of]. split.
  - apply (slot_count_even _ _ _ _ _ Hn).
  - intros Hff Hfdfd HKK He' Hfit.
    destruct (spec_slot_count_some _ _ _ _ _ Hn) as [e He].
    destruct (slot_count_below_spec _ _ _ _ _ _ Hf0 Hfd0 HK0 Hn He) as [Hle _].
    destruct (slot_count_below_spec _ _ _ _ _ _ Hf0' Hfd0' HK0' Hn' He') as [_ Heq].
    rewrite (Heq Hfit).
    pose proof (spec_slot_count_mono score f fd K f' fd' K' e e'
                  ltac:(lia) ltac:(lia) ltac:(lia) He He').
    lia.
Qed.

Lemma slot_count_even_and_monotone_witness :
  exists m m' w1 w1',
    Initialize Gnu.runtime "fm" "logloss" 2 0 4 blank initial_world = (Ok m, w1) /\
    Initialize Gnu.runtime "fm" "logloss" 3 0 5 blank initial_world = (Ok m', w1') /\
    Z.even (param_num_w_ m) = true /\
    param_num_w_ m <= param_num_w_ m'.
Proof.
  assert (Hi : forall z, 0 <= z < 10 -> is_index z)
    by (intros z Hz; unfold is_index; rewrite index_modulus_eq; lia).
  do 4 eexists.
  split; [vm_compute; reflexivity|].
  split; [vm_compute; reflexivity|].
  destruct (slot_count_even_and_monotone Gnu.runtime "fm" "logloss" "logloss"
              2 0 4 3 0 5 blank blank _ _ initial_world initial_world _ _ 30
              (Hi 2 ltac:(lia)) (Hi 0 ltac:(lia)) (Hi 3 ltac:(lia)) (Hi 0 ltac:(lia))
              eq_refl eq_refl) as [Heven Hmono].
  split; [exact Heven|].
  apply Hmono; try lia; reflexivity.
Defined.

(** C9 as stated fails: the slot count of the "linear" store drops from
    2^32 - 2 to 0 when the feature count goes from 2^31 - 1 to 2^31. *)
Lemma slot_count_not_monotone :
  exists m m' w1 w1',
    Initialize Gnu.runtime "linear" "logloss" 2147483647 0 0 blank initial_world
      = (Ok m, w1) /\
    Initialize Gnu.runtime "linear" "logloss" 2147483648 0 0 blank initial_world
      = (Ok m', w1') /\
    2147483647 <= 2147483648 /\
    param_num_w_ m = 4294967294 /\ param_num_w_ m' = 0 /\
    ~ param_num_w_ m <= param_num_w_ m'.
Proof.
  rewrite !Initialize_linear by (discriminate || lia).
  do 4 eexists. repeat split; try discriminate.
  cbn [param_num_w_ model_of].
  change (index_mul 2147483647 2) with 4294967294.
  change (index_mul 2147483648 2) with 0. lia.
Qed.

(** C8. For every variant, fresh construction with featureCount = 0 fails on
    the check of the feature count ([CHECK_GT(num_feature, 0)], the
    InvalidDimensions of the spec) and the world is left as it was: nothing
    has been allocated. Whatever the labels, the construction fails before
    any allocation. *)
Theorem zero_features_rejected_before_allocation (rt : Runtime)
    (score loss : string) (fd K : Z) (this : Model) (w : World) :
  (exists e, Initialize rt score loss 0 fd K this w = (Err e, w)) /\
  (known_score score = true -> loss <> ""%string ->
   Initialize rt score loss 0 fd K this w =
   (Err (CheckFailed "num_feature > 0"), w)).
Proof.
  unfold Initialize, CHECK. split.
  - destruct (score =? "")%string; [eexists; reflexivity|].
    destruct (loss =? "")%string; eexists; reflexivity.
  - intros Hscore Hloss. rewrite (nonempty_eqb _ Hloss).
    destruct (known_score_cases _ Hscore) as [->|[->| ->]]; reflexivity.
Qed.

Lemma zero_features_rejected_before_allocation_witness :
  Initialize Gnu.runtime "ffm" "logloss" 0 2 3 blank initial_world =
  (Err (CheckFailed "num_feature > 0"), initial_world).
Proof.
  apply (zero_features_rejected_before_allocation Gnu.runtime "ffm" "logloss"
           2 3 blank initial_world).
  - reflexivity.
  - discriminate.
Defined.

Lemma ffm_layout_no_factors (rt : Runtime) (f fd : Z) : ffm_layout rt f fd 0 = [].
Proof.
  apply nil_length_inv. rewrite ffm_layout_length.
  unfold ffm_slots, feature_slots, block_slots.
  change (to_index (round_up_to_alignment 0 kAlign) / kAlign) with 0.
  simpl Z.to_nat. lia.
Qed.

(** C7, as amended. With factorCount = 0 the initialisation of a variant
    that uses factors does not fail ([CHECK_GE(num_K, 0)] lets 0 pass): the
    store is built with slot count 0 and an empty buffer, so no value
    derived from a division by the square root of 0 is in it. *)
Theorem zero_factors_gives_empty_buffer (rt : Runtime) (score loss : string)
    (f fd : Z) (this : Model) (w : World) :
  score = "fm"%string \/ score = "ffm"%string ->
  loss <> ""%string -> 0 < f -> is_index f -> is_index fd ->
  Initialize rt score loss f fd 0 this w =
  (Ok (model_of score loss f fd 0 0 []), allocated (allocation_of score 0) w).
Proof.
  intros [-> | ->] Hloss Hfeat Hf Hfd.
  - rewrite Initialize_fm by (assumption || apply Hfd || lia).
    unfold index_mul. rewrite Z.mul_0_r. reflexivity.
  - rewrite Initialize_ffm by (assumption || lia). cbv zeta.
    change (to_index (round_up_to_alignment 0 kAlign)) with 0.
    rewrite Z.mul_0_r, Z.mul_0_l.
    rewrite ffm_layout_no_factors. reflexivity.
Qed.

Lemma zero_factors_gives_empty_buffer_witness :
  Initialize Gnu.runtime "ffm" "logloss" 3 2 0 blank initial_world =
  (Ok (model_of "ffm" "logloss" 3 2 0 0 []),
   allocated (PosixMemalign 16 0) initial_world).
Proof.
  apply (zero_factors_gives_empty_buffer Gnu.runtime "ffm" "logloss" 3 2
           blank initial_world).
  - right. reflexivity.
  - discriminate.
  - lia.
  - unfold is_index. rewrite index_modulus_eq. lia.
  - unfold is_index. rewrite index_modulus_eq. lia.
Defined.

(** C7 as stated fails: "fm" with one feature and no factor is built, with
    an empty buffer, and no failure is reported. *)
Lemma zero_factors_accepted :
  Initialize Gnu.runtime "fm" "logloss" 1 0 0 blank initial_world =
  (Ok (model_of "fm" "logloss" 1 0 0 0 []),
   allocated (Malloc 0) initial_world).
Proof. vm_compute. reflexivity. Qed.

(** The result of [Initialize_w] depends neither on the buffer the object
    pointed to before nor on the world. *)
Lemma Initialize_w_frame (rt : Runtime) (set_value : bool) (score loss : string)
    (f fd K n : Z) (old old' : buffer) (w w' : World) :
  fst (Initialize_w rt set_value (model_of score loss f fd K n old) w) =
  fst (Initialize_w rt set_value (model_of score loss f fd K n old') w').
Proof.
  unfold Initialize_w, bind, malloc, posix_memalign, LOG_FATAL, abort, lift, ret,
    with_param_w_, ffm_loop, get_aligned_k.
  cbn [model_of score_func_ loss_func_ num_feat_ num_field_ num_K_ param_num_w_
       param_w_].
  destruct (score =? "linear")%string; cbn [orb].
  - destruct set_value; [|reflexivity].
    destruct (linear_loop n _); reflexivity.
  - destruct (score =? "fm")%string; cbn [orb].
    + destruct set_value; [|reflexivity].
      destruct (fm_loop rt K n _ _); reflexivity.
    + destruct (score =? "ffm")%string; [|reflexivity].
      destruct set_value; [|reflexivity].
      destruct (for_ _ _ _ _); reflexivity.
Qed.

(** C10. Fresh creation takes no randomness from outside: the generator is
    default-constructed inside [Initialize_w] on every call, so two fresh
    constructions with the same variant, loss, feature, field and factor
    counts give the same result, slot for slot, whatever the object held
    before and whatever the program did before. *)
Theorem fresh_model_deterministic (rt : Runtime) (score loss : string)
    (f fd K : Z) (this this' : Model) (w w' : World) :
  fst (Initialize rt score loss f fd K this w) =
  fst (Initialize rt score loss f fd K this' w').
Proof.
  unfold Initialize, CHECK.
  destruct (score =? "")%string; [reflexivity|].
  destruct (loss =? "")%string; [reflexivity|].
  destruct (0 <? f); [|reflexivity].
  destruct (0 <=? fd); [|reflexivity].
  destruct (0 <=? K); [|reflexivity].
  cbn [negb]. unfold bind at 1 2 3 4 5 7 8 9 10 11. cbn [ret].
  unfold get_aligned_k. cbn [num_K_].
  unfold bind.
  destruct (count_parameters score f _ fd K) as [n|]; [|reflexivity].
  cbn [ret]. unfold with_param_num_w_.
  cbn [score_func_ loss_func_ num_feat_ num_field_ num_K_ param_w_].
  apply (Initialize_w_frame rt true score loss f fd K n).
Qed.

(** A built "ffm" store: its slot count is in range and its buffer is the
    layout. *)
Lemma Initialize_ffm_built (rt : Runtime) (loss : string) (f fd K : Z)
    (this : Model) (w : World) (m : Model) (w' : World) :
  is_index f -> is_index fd ->
  Initialize rt "ffm" loss f fd K this w = (Ok m, w') ->
  m = model_of "ffm" loss f fd K
        (f * to_index (round_up_to_alignment K kAlign) * fd * 2)
        (ffm_layout rt f fd K).
Proof.
  intros Hf Hfd H.
  destruct (Initialize_inv _ _ _ _ _ _ _ _ _ _ H) as (_ & Hloss & Hfeat & _ & HK & _).
  rewrite Initialize_ffm in H by assumption. cbv zeta in H.
  destruct (_ <? index_modulus); [|discriminate H].
  injection H as <- _. reflexivity.
Qed.

(** C3, as amended. After initialisation the buffer of the "linear" and of
    the "fm" variant is made of contiguous pairs: for every i with
    0 <= 2i+1 < slotCount, buffer[2i] is a weight (0 for "linear", the
    scaled draw number i for "fm") and buffer[2i+1] is its accumulator,
    equal to 1.0. The buffer of a built "ffm" store is made of chunks of
    2 x kAlign slots: the weight of feature j, field f and factor position
    d stands with the other weights of its chunk, and its accumulator,
    equal to 1.0, stands kAlign slots after it; the store is built whenever
    its slot count stays below 2^32. *)
Theorem fresh_buffer_layout (rt : Runtime) (loss : string) (f fd K : Z)
    (this : Model) (w : World) :
  loss <> ""%string -> 0 < f -> is_index f -> is_index fd -> is_index K ->
  (exists m w',
     Initialize rt "linear" loss f fd K this w = (Ok m, w') /\
     forall i, 0 <= i -> 2 * i + 1 < param_num_w_ m ->
       param_w_ m !! Z.to_nat (2 * i) = Some (Some real_zero) /\
       param_w_ m !! Z.to_nat (2 * i + 1) = Some (Some real_one)) /\
  (exists m w',
     Initialize rt "fm" loss f fd K this w = (Ok m, w') /\
     forall i, 0 <= i -> 2 * i + 1 < param_num_w_ m ->
       param_w_ m !! Z.to_nat (2 * i) =
         Some (Some (real_mul rt (inv_sqrt rt K) (nth_draw rt (Z.to_nat i)))) /\
       param_w_ m !! Z.to_nat (2 * i + 1) = Some (Some real_one)) /\
  (forall m w',
     Initialize rt "ffm" loss f fd K this w = (Ok m, w') ->
     forall j b d, 0 <= j < f -> 0 <= b < fd -> 0 <= d < get_aligned_k m ->
       exists x,
         param_w_ m !! Z.to_nat (ffm_weight_index fd (get_aligned_k m) j b d)
           = Some (Some x) /\
         param_w_ m !! Z.to_nat (ffm_accumulator_index fd (get_aligned_k m) j b d)
           = Some (Some real_one)) /\
  (f * round_up_to_alignment K kAlign * fd * 2 < index_modulus ->
   exists m w', Initialize rt "ffm" loss f fd K this w = (Ok m, w')).
Proof.
  intros Hloss Hfeat Hf Hfd HK.
  destruct HK as [HK0 HK1].
  split; [|split; [|split]].
  - rewrite Initialize_linear by (assumption || apply Hfd).
    eexists. eexists. split; [reflexivity|].
    cbn [param_num_w_ param_w_ model_of]. intros i Hi Hn.
    apply linear_layout_pair; assumption.
  - rewrite Initialize_fm by (assumption || apply Hfd).
    eexists. eexists. split; [reflexivity|].
    cbn [param_num_w_ param_w_ model_of]. intros i Hi Hn.
    apply fm_layout_pair; assumption.
  - intros m w' Hm j b d Hj Hb.
    rewrite (Initialize_ffm_built _ _ _ _ _ _ _ _ _ Hf Hfd Hm).
    unfold get_aligned_k. cbn [param_num_w_ param_w_ num_K_ model_of].
    intros Hd.
    destruct (ffm_layout_slot rt f fd K j b d Hj Hb Hd) as [x [Hx [_ Hone]]].
    exists x. split; [exact Hx|exact Hone].
  - intros Hfit.
    rewrite Initialize_ffm by assumption. cbv zeta.
    rewrite fits_padded by (assumption || apply Hfd).
    replace (_ <? index_modulus) with true by (symmetry; apply Z.ltb_lt; exact Hfit).
    eexists. eexists. reflexivity.
Qed.

Lemma fresh_buffer_layout_witness :
  exists m w',
    Initialize Gnu.runtime "fm" "logloss" 2 0 4 blank initial_world = (Ok m, w') /\
    param_w_ m !! Z.to_nat (2 * 3) =
      Some (Some (real_mul Gnu.runtime (inv_sqrt Gnu.runtime 4)
                    (nth_draw Gnu.runtime 3))) /\
    param_w_ m !! Z.to_nat (2 * 3 + 1) = Some (Some real_one).
Proof.
  assert (Hi : forall z, 0 <= z < 10 -> is_index z)
    by (intros z Hz; unfold is_index; rewrite index_modulus_eq; lia).
  destruct (fresh_buffer_layout Gnu.runtime "logloss" 2 0 4 blank initial_world
              ltac:(discriminate) ltac:(lia)
              (Hi 2 ltac:(lia)) (Hi 0 ltac:(lia)) (Hi 4 ltac:(lia)))
    as [_ [[m [w' [Hm Hpairs]]] _]].
  exists m, w'. split; [exact Hm|].
  apply Hpairs; [lia|].
  rewrite Initialize_fm in Hm by (discriminate || lia).
  injection Hm as <- _. vm_compute. reflexivity.
Defined.

(** C3 as stated fails for "ffm": with one feature, one field and one
    factor, slot 1 of the eight slots is a weight of the padding, 0, and
    not an accumulator equal to 1.0. *)
Lemma ffm_buffer_not_interleaved :
  exists m w',
    Initialize Gnu.runtime "ffm" "logloss" 1 1 1 blank initial_world = (Ok m, w') /\
    0 <= 2 * 0 + 1 < param_num_w_ m /\
    param_w_ m !! Z.to_nat (2 * 0 + 1) = Some (Some real_zero) /\
    real_zero <> real_one.
Proof.
  eexists. eexists. split; [vm_compute; reflexivity|].
  cbn [param_num_w_ param_w_]. repeat split; try lia. discriminate.
Qed.

(** C6, as amended. For the field-aware variant with featureCount,
    fieldCount and factorCount above 0, in every store that is built:
    paddedFactors, the value of [get_aligned_k], is a multiple of the
    alignment width; it is factorCount rounded up, and so at least
    factorCount, as long as factorCount is at most 2^32 minus the alignment
    width, and beyond that it wraps around to 0 and the buffer is empty;
    the weight at every factor position d with
    factorCount <= d < paddedFactors is 0.0 and the accumulator of every
    weight, in the padding as elsewhere, is 1.0. The initialisation
    completes, with the factor count rounded up as padded factors, whenever
    the slot count stays below 2^32, the range of an [index_t]. *)
Theorem ffm_padding_is_inert (rt : Runtime) (loss : string) (f fd K : Z)
    (this : Model) (w : World) :
  is_index f -> is_index fd -> is_index K ->
  0 < f -> 0 < fd -> 0 < K ->
  (forall m w',
     Initialize rt "ffm" loss f fd K this w = (Ok m, w') ->
     get_aligned_k m mod kAlign = 0 /\
     (K <= index_modulus - kAlign ->
      get_aligned_k m = round_up_to_alignment K kAlign /\ K <= get_aligned_k m) /\
     (index_modulus - kAlign < K ->
      get_aligned_k m = 0 /\ param_num_w_ m = 0 /\ param_w_ m = []) /\
     forall j b d, 0 <= j < f -> 0 <= b < fd -> 0 <= d < get_aligned_k m ->
       exists x,
         param_w_ m !! Z.to_nat (ffm_weight_index fd (get_aligned_k m) j b d)
           = Some (Some x) /\
         (K <= d -> x = real_zero) /\
         param_w_ m !! Z.to_nat (ffm_accumulator_index fd (get_aligned_k m) j b d)
           = Some (Some real_one)) /\
  (loss <> ""%string ->
   f * round_up_to_alignment K kAlign * fd * 2 < index_modulus ->
   exists m w',
     Initialize rt "ffm" loss f fd K this w = (Ok m, w') /\
     get_aligned_k m = round_up_to_alignment K kAlign /\
     K <= get_aligned_k m /\
     param_num_w_ m = f * round_up_to_alignment K kAlign * fd * 2).
Proof.
  intros Hf Hfd HK Hfeat Hfield Hfactor.
  pose proof (round_up_ge K kAlign ltac:(reflexivity)) as Hge.
  pose proof (round_up_multiple K kAlign ltac:(reflexivity)) as Hmul.
  assert (Hlt : round_up_to_alignment K kAlign < K + kAlign).
  { unfold round_up_to_alignment.
    pose proof (Z.div_mod (K + kAlign - 1) kAlign ltac:(discriminate)).
    pose proof (Z.mod_pos_bound (K + kAlign - 1) kAlign ltac:(reflexivity)).
    lia. }
  split.
  - intros m w' Hm.
    rewrite (Initialize_ffm_built _ _ _ _ _ _ _ _ _ Hf Hfd Hm).
    unfold get_aligned_k. cbn [param_num_w_ param_w_ num_K_ model_of].
    split; [apply padded_index|].
    split; [|split].
    + intros Hsmall.
      assert (Hka : to_index (round_up_to_alignment K kAlign) =
                    round_up_to_alignment K kAlign)
        by (apply to_index_small; split; lia).
      rewrite Hka. split; [reflexivity|exact Hge].
    + intros Hlarge.
      assert (Hka : to_index (round_up_to_alignment K kAlign) = 0).
      { destruct (padded_or_wrapped K HK) as [Hka|Hka]; [|exact Hka].
        pose proof (to_index_range (round_up_to_alignment K kAlign)) as Hr.
        rewrite Hka in Hr. destruct Hr as [_ Hr].
        pose proof (Z.div_mod (round_up_to_alignment K kAlign) kAlign
                      ltac:(discriminate)) as Hdm.
        rewrite Hmul in Hdm. rewrite index_modulus_eq in *. unfold kAlign in *.
        lia. }
      rewrite Hka. split; [reflexivity|]. split; [ring|].
      apply nil_length_inv. rewrite ffm_layout_length.
      unfold ffm_slots, feature_slots. rewrite Hka.
      change (block_slots 0) with 0%nat. lia.
    + intros j b d Hj Hb Hd. apply ffm_layout_slot; assumption.
  - intros Hloss Hfit.
    destruct HK as [HK0 HK1].
    pose proof (round_up_nonneg K kAlign ltac:(reflexivity) HK0) as HR.
    assert (Hka : to_index (round_up_to_alignment K kAlign) =
                  round_up_to_alignment K kAlign).
    { apply to_index_small. split; [exact HR|].
      assert (H1 : 1 <= f * fd) by nia.
      assert (H2 : round_up_to_alignment K kAlign * 1 <=
                   round_up_to_alignment K kAlign * (f * fd))
        by (apply Z.mul_le_mono_nonneg_l; assumption).
      replace (f * round_up_to_alignment K kAlign * fd * 2)
        with (round_up_to_alignment K kAlign * (f * fd) * 2) in Hfit by ring.
      lia. }
    rewrite Initialize_ffm by assumption. cbv zeta.
    rewrite Hka.
    replace (_ <? index_modulus) with true by (symmetry; apply Z.ltb_lt; exact Hfit).
    eexists. eexists. split; [reflexivity|].
    unfold get_aligned_k. cbn [param_num_w_ num_K_ model_of].
    split; [exact Hka|]. split; [rewrite Hka; exact Hge|reflexivity].
Qed.

Lemma ffm_padding_is_inert_witness :
  exists m w',
    Initialize Gnu.runtime "ffm" "logloss" 2 2 3 blank initial_world = (Ok m, w') /\
    get_aligned_k m = 4 /\ param_num_w_ m = 32 /\
    param_w_ m !! Z.to_nat (ffm_weight_index 2 4 1 1 3) = Some (Some real_zero) /\
    param_w_ m !! Z.to_nat (ffm_accumulator_index 2 4 1 1 3) = Some (Some real_one).
Proof.
  assert (Hi : forall z, 0 <= z < 10 -> is_index z)
    by (intros z Hz; unfold is_index; rewrite index_modulus_eq; lia).
  destruct (ffm_padding_is_inert Gnu.runtime "logloss" 2 2 3 blank initial_world
              (Hi 2 ltac:(lia)) (Hi 2 ltac:(lia)) (Hi 3 ltac:(lia))
              ltac:(lia) ltac:(lia) ltac:(lia))
    as (Hslots & Hbuilt).
  destruct (Hbuilt ltac:(discriminate) ltac:(reflexivity))
    as (m & w' & Hm & Hka & _ & Hn).
  exists m, w'.
  destruct (Hslots m w' Hm) as (_ & _ & _ & Hs).
  specialize (Hs 1 1 3).
  rewrite Hka in *. change (round_up_to_alignment 3 kAlign) with 4 in *.
  destruct (Hs ltac:(lia) ltac:(lia) ltac:(lia)) as (x & Hx & Hzero & Hone).
  rewrite (Hzero ltac:(lia)) in Hx.
  repeat split; assumption.
Defined.

(** C6 as stated fails where the factor count rounded up does not fit an
    [index_t]: with one feature, one field and 2^32 - 1 factors the store
    is built, and its padded factor count is 0, below the factor count. *)
Lemma padded_factors_below_factor_count :
  exists m w',
    Initialize Gnu.runtime "ffm" "logloss" 1 1 4294967295 blank initial_world
      = (Ok m, w') /\
    0 < num_feat_ m /\ 0 < num_field_ m /\ 0 < num_K_ m /\
    get_aligned_k m = 0 /\ get_aligned_k m < num_K_ m.
Proof.
  eexists. eexists. split; [vm_compute; reflexivity|].
  cbn [num_feat_ num_field_ num_K_]. unfold get_aligned_k. cbn [num_K_].
  repeat split; try lia; vm_compute; reflexivity.
Qed.

Lemma known_score_short (score : string) :
  known_score score = true -> short_label score.
Proof.
  intros H. destruct (known_score_cases _ H) as [->|[->| ->]]; reflexivity.
Qed.

Lemma disk_written (name : string) (bytes : list byte) (w : World) :
  disk (written name bytes w) !! name = Some bytes.
Proof. unfold written. cbn [disk]. apply lookup_insert_eq. Qed.

(** C2. Round trip: for every freshly created store, saving it and loading
    the checkpoint gives back the store itself: the same variant and loss
    labels, the same feature, field and factor counts, the same slot count,
    and a buffer with the same bytes in every slot. *)
Theorem load_of_save_is_identity (rt : Runtime) (score loss : string)
    (f fd K : Z) (this : Model) (w : World) (m : Model) (w1 : World)
    (filename : string) (this' : Model) :
  is_index f -> is_index fd -> is_index K ->
  short_label loss -> filename <> ""%string ->
  Initialize rt score loss f fd K this w = (Ok m, w1) ->
  exists w2 w3,
    Serialize filename m w1 = (Ok tt, w2) /\
    Deserialize rt filename this' w2 = (Ok (true, m), w3).
Proof.
  intros Hf Hfd HK Hloss Hname Hinit.
  destruct (Initialize_inv _ _ _ _ _ _ _ _ _ _ Hinit) as (_ & _ & _ & _ & _ & Hknown).
  destruct (Initialize_fresh _ _ _ _ _ _ _ _ _ _ Hf Hfd Hinit)
    as (n & values & -> & Hn & Hlen & _ & _).
  rewrite (Serialize_spec filename _ values) by (assumption || reflexivity).
  cbn [score_func_ loss_func_ num_feat_ num_field_ num_K_ param_num_w_ model_of].
  eexists. eexists. split; [reflexivity|].
  rewrite (Deserialize_spec rt filename this' _ score loss f fd K n values []);
    try assumption.
  - rewrite Hknown. reflexivity.
  - apply known_score_short. exact Hknown.
  - intros _. exact Hlen.
  - rewrite disk_written, app_nil_r. reflexivity.
Qed.

Lemma load_of_save_is_identity_witness :
  exists m w1 w2 w3,
    Initialize Gnu.runtime "ffm" "logloss" 2 2 3 blank initial_world = (Ok m, w1) /\
    Serialize "model.bin" m w1 = (Ok tt, w2) /\
    Deserialize Gnu.runtime "model.bin" blank w2 = (Ok (true, m), w3).
Proof.
  assert (Hi : forall z, 0 <= z < 10 -> is_index z)
    by (intros z Hz; unfold is_index; rewrite index_modulus_eq; lia).
  destruct (Initialize Gnu.runtime "ffm" "logloss" 2 2 3 blank initial_world)
    as [[m|e] w1] eqn:Hinit; [|vm_compute in Hinit; discriminate Hinit].
  destruct (load_of_save_is_identity Gnu.runtime "ffm" "logloss" 2 2 3
              blank initial_world m w1 "model.bin" blank
              (Hi 2 ltac:(lia)) (Hi 2 ltac:(lia)) (Hi 3 ltac:(lia))
              ltac:(reflexivity) ltac:(discriminate) Hinit)
    as (w2 & w3 & Hsave & Hload).
  exists m, w1, w2, w3. repeat split; assumption.
Defined.

(** C5. The load trusts the stored slot count: for a checkpoint of a known
    variant that holds a count n and n values, whatever the feature, field
    and factor counts stored with them, it allocates n slots, reads the n
    values into them, leaves what follows in the file unread and reports
    no error. *)
Theorem load_trusts_stored_count (rt : Runtime) (filename : string)
    (this : Model) (w : World) (score loss : string) (f fd K n : Z)
    (values : list real_t) (rest : list byte) :
  filename <> ""%string ->
  known_score score = true -> short_label loss ->
  is_index f -> is_index fd -> is_index K -> is_index n ->
  Z.to_nat n = length values ->
  disk w !! filename = Some (checkpoint_bytes score loss f fd K n values ++ rest) ->
  Deserialize rt filename this w =
  (Ok (true, model_of score loss f fd K n (map Some values)),
   allocated (allocation_of score n) w).
Proof.
  intros Hname Hknown Hloss Hf Hfd HK Hn Hlen Hfile.
  rewrite (Deserialize_spec rt filename this w score loss f fd K n values rest);
    try assumption.
  - rewrite Hknown. reflexivity.
  - apply known_score_short. exact Hknown.
  - intros _. exact Hlen.
Qed.

(** Scenario D: three features stored with a slot count of 2 instead of 6. *)
Lemma load_trusts_stored_count_witness :
  slot_count "linear" 3 0 0 = Some 6 /\
  Deserialize Gnu.runtime "model.bin" blank
    (written "model.bin"
       (checkpoint_bytes "linear" "logloss" 3 0 0 2 [real_zero; real_one])
       initial_world) =
  (Ok (true, model_of "linear" "logloss" 3 0 0 2 [Some real_zero; Some real_one]),
   allocated (Malloc 8)
     (written "model.bin"
        (checkpoint_bytes "linear" "logloss" 3 0 0 2 [real_zero; real_one])
        initial_world)).
Proof.
  assert (Hi : forall z, 0 <= z < 10 -> is_index z)
    by (intros z Hz; unfold is_index; rewrite index_modulus_eq; lia).
  split; [reflexivity|].
  apply (load_trusts_stored_count Gnu.runtime "model.bin" blank _
           "linear" "logloss" 3 0 0 2 [real_zero; real_one] []).
  - discriminate.
  - reflexivity.
  - reflexivity.
  - apply Hi. lia.
  - apply Hi. lia.
  - apply Hi. lia.
  - apply Hi. lia.
  - reflexivity.
  - rewrite disk_written, app_nil_r. reflexivity.
Defined.

(** C4, as amended. The load fails, by the fatal log of [Initialize_w] and
    without a store, whenever the stored variant label is none of
    "linear", "fm" and "ffm". The loss label and the feature count are not
    examined: with a known variant label the load succeeds whatever they
    are, a feature count of 0 included. *)
Theorem load_rejects_unknown_score_only (rt : Runtime) (filename : string)
    (this : Model) (w : World) (score loss : string) (f fd K n : Z)
    (values : list real_t) (rest : list byte) :
  filename <> ""%string ->
  short_label score -> short_label loss ->
  is_index f -> is_index fd -> is_index K -> is_index n ->
  disk w !! filename = Some (checkpoint_bytes score loss f fd K n values ++ rest) ->
  (known_score score = false ->
   Deserialize rt filename this w = (Err (LogFatal (unknown_score score)), w)) /\
  (known_score score = true -> Z.to_nat n = length values ->
   Deserialize rt filename this w =
   (Ok (true, model_of score loss f fd K n (map Some values)),
    allocated (allocation_of score n) w)).
Proof.
  intros Hname Hscore Hloss Hf Hfd HK Hn Hfile. split.
  - intros Hunknown.
    rewrite (Deserialize_spec rt filename this w score loss f fd K n values rest);
      try assumption.
    + rewrite Hunknown. reflexivity.
    + rewrite Hunknown. discriminate.
  - intros Hknown Hlen.
    rewrite (Deserialize_spec rt filename this w score loss f fd K n values rest);
      try assumption.
    + rewrite Hknown. reflexivity.
    + intros _. exact Hlen.
Qed.

Lemma load_rejects_unknown_score_only_witness :
  Deserialize Gnu.runtime "model.bin" blank
    (written "model.bin" (checkpoint_bytes "svm" "logloss" 3 0 0 0 [])
       initial_world) =
  (Err (LogFatal "Unknow score function: svm"),
   written "model.bin" (checkpoint_bytes "svm" "logloss" 3 0 0 0 []) initial_world).
Proof.
  assert (Hi : forall z, 0 <= z < 10 -> is_index z)
    by (intros z Hz; unfold is_index; rewrite index_modulus_eq; lia).
  apply (load_rejects_unknown_score_only Gnu.runtime "model.bin" blank _
           "svm" "logloss" 3 0 0 0 [] []).
  - discriminate.
  - reflexivity.
  - reflexivity.
  - apply Hi. lia.
  - apply Hi. lia.
  - apply Hi. lia.
  - apply Hi. lia.
  - rewrite disk_written, app_nil_r. reflexivity.
  - reflexivity.
Defined.

(** C4 as stated fails: a checkpoint of the "linear" variant with a loss
    label the program knows nothing of and a feature count of 0 is loaded
    without any error. *)
Lemma load_accepts_any_loss_and_zero_features :
  Deserialize Gnu.runtime "model.bin" blank
    (written "model.bin" (checkpoint_bytes "linear" "no-such-loss" 0 0 0 0 [])
       initial_world) =
  (Ok (true, model_of "linear" "no-such-loss" 0 0 0 0 []),
   allocated (Malloc 0)
     (written "model.bin" (checkpoint_bytes "linear" "no-such-loss" 0 0 0 0 [])
        initial_world)).
Proof.
  apply (Deserialize_spec Gnu.runtime "model.bin" blank _
           "linear" "no-such-loss" 0 0 0 0 [] []);
    try reflexivity; try discriminate;
    try (unfold is_index; rewrite index_modulus_eq; lia).
Qed.

(** * Further properties of the code *)

(** ** The failures of Initialize *)

(** A failed check or an unknown score ends the process and leaves the
    world as it was. *)
Lemma Initialize_checks_fail (rt : Runtime) (score loss : string) (f fd K : Z)
    (this : Model) (w : World) :
  score = ""%string \/ loss = ""%string \/ f <= 0 \/ fd < 0 \/ K < 0 \/
  known_score score = false ->
  exists e, Initialize rt score loss f fd K this w = (Err e, w) /\ aborted e.
Proof.
  intros H. unfold Initialize, CHECK.
  destruct (score =? "")%string eqn:Hs; [eexists; split; [reflexivity|exact I]|].
  destruct (loss =? "")%string eqn:Hl; [eexists; split; [reflexivity|exact I]|].
  destruct (0 <? f) eqn:Hf; [|eexists; split; [reflexivity|exact I]].
  destruct (0 <=? fd) eqn:Hfd; [|eexists; split; [reflexivity|exact I]].
  destruct (0 <=? K) eqn:HK; [|eexists; split; [reflexivity|exact I]].
  apply String.eqb_neq in Hs, Hl. apply Z.ltb_lt in Hf.
  apply Z.leb_le in Hfd, HK.
  destruct H as [H|[H|[H|[H|[H|H]]]]]; try contradiction; try lia.
  cbn [negb]. unfold bind at 1 2 3 4 5. cbn [ret].
  unfold count_parameters, known_score in *.
  destruct (score =? "linear")%string; [discriminate|].
  destruct (score =? "fm")%string; [discriminate|].
  destruct (score =? "ffm")%string; [discriminate|].
  eexists. split; [reflexivity|exact I].
Qed.

(** X1. A store is built only from arguments that pass every check: the
    score function is one of "linear", "fm" and "ffm", the loss label is
    not empty, the feature count is above 0; and a built "ffm" store never
    has a wrapped slot count: the product of the feature count, the padded
    factor count, the field count and 2 is below 2^32, and it is the slot
    count of the store. *)
Theorem Initialize_succeeds_only_if (rt : Runtime) (score loss : string)
    (f fd K : Z) (this : Model) (w : World) (m : Model) (w' : World) :
  is_index f -> is_index fd ->
  Initialize rt score loss f fd K this w = (Ok m, w') ->
  known_score score = true /\ loss <> ""%string /\ 0 < f /\
  (score = "ffm"%string ->
   f * aligned_k K * fd * 2 < index_modulus /\
   param_num_w_ m = f * aligned_k K * fd * 2).
Proof.
  intros Hf Hfd H. unfold aligned_k.
  destruct (Initialize_inv _ _ _ _ _ _ _ _ _ _ H)
    as (_ & Hloss & Hfeat & _ & HK0 & Hknown).
  repeat split; try assumption.
  - subst score. rewrite Initialize_ffm in H by assumption. cbv zeta in H.
    destruct (Z.ltb_spec (f * to_index (round_up_to_alignment K kAlign) * fd * 2)
                index_modulus) as [Hfit|_]; [exact Hfit|discriminate H].
  - subst score.
    rewrite (Initialize_ffm_built _ _ _ _ _ _ _ _ _ Hf Hfd H). reflexivity.
Qed.

Lemma Initialize_succeeds_only_if_witness :
  exists m w',
    Initialize Gnu.runtime "ffm" "logloss" 2 2 3 blank initial_world = (Ok m, w') /\
    2 * aligned_k 3 * 2 * 2 < index_modulus /\
    param_num_w_ m = 2 * aligned_k 3 * 2 * 2.
Proof.
  assert (Hi : forall z, 0 <= z < 10 -> is_index z)
    by (intros z Hz; unfold is_index; rewrite index_modulus_eq; lia).
  destruct (Initialize Gnu.runtime "ffm" "logloss" 2 2 3 blank initial_world)
    as [[m|e] w'] eqn:Hinit; [|vm_compute in Hinit; discriminate Hinit].
  exists m, w'. split; [reflexivity|].
  destruct (Initialize_succeeds_only_if Gnu.runtime "ffm" "logloss" 2 2 3
              blank initial_world m w' (Hi 2 ltac:(lia)) (Hi 2 ltac:(lia)) Hinit)
    as (_ & _ & _ & Hffm).
  exact (Hffm eq_refl).
Defined.

(** X2. Initialize ends the process on a CHECK or a LOG(FATAL) exactly
    when the score function is not one of the three, the loss label is
    empty or the feature count is 0; it does so before anything is
    allocated: the heap and the disk are as they were. *)
Theorem Initialize_aborts_before_allocation (rt : Runtime) (score loss : string)
    (f fd K : Z) (this : Model) (w : World) :
  is_index f -> is_index fd -> is_index K ->
  (known_score score = false \/ loss = ""%string \/ f = 0 ->
   exists e, Initialize rt score loss f fd K this w = (Err e, w) /\ aborted e) /\
  (forall e w',
     Initialize rt score loss f fd K this w = (Err e, w') -> aborted e ->
     w' = w /\ (known_score score = false \/ loss = ""%string \/ f = 0)).
Proof.
  intros Hf Hfd HK. split.
  - intros [H|[H|H]]; apply Initialize_checks_fail.
    + do 5 right. exact H.
    + right. left. exact H.
    + right. right. left. lia.
  - intros e w' H Hab.
    destruct (known_score score) eqn:Hknown.
    2:{ destruct (Initialize_checks_fail rt score loss f fd K this w
                    (or_intror (or_intror (or_intror (or_intror (or_intror Hknown))))))
          as (e' & He & _).
        rewrite He in H. injection H as _ <-. split; [reflexivity|left; reflexivity]. }
    destruct (String.eqb_spec loss "") as [Hl|Hl].
    { destruct (Initialize_checks_fail rt score loss f fd K this w
                  (or_intror (or_introl Hl))) as (e' & He & _).
      rewrite He in H. injection H as _ <-.
      split; [reflexivity|right; left; exact Hl]. }
    destruct (Z_lt_le_dec 0 f) as [Hfeat|Hfeat].
    2:{ destruct (Initialize_checks_fail rt score loss f fd K this w
                    (or_intror (or_intror (or_introl Hfeat)))) as (e' & He & _).
        rewrite He in H. injection H as _ <-.
        split; [reflexivity|right; right; destruct Hf; lia]. }
    exfalso.
    destruct Hfd as [Hfd0 Hfd1]. destruct HK as [HK0 HK1].
    destruct (known_score_cases _ Hknown) as [->|[->| ->]].
    + rewrite Initialize_linear in H by assumption. discriminate H.
    + rewrite Initialize_fm in H by assumption. discriminate H.
    + rewrite Initialize_ffm in H by (assumption || split; assumption).
      cbv zeta in H.
      destruct (_ <? index_modulus); [discriminate H|].
      injection H as <- _. exact Hab.
Qed.

Lemma Initialize_aborts_before_allocation_witness :
  exists e,
    Initialize Gnu.runtime "svm" "logloss" 3 2 4 blank initial_world
      = (Err e, initial_world) /\ aborted e.
Proof.
  assert (Hi : forall z, 0 <= z < 10 -> is_index z)
    by (intros z Hz; unfold is_index; rewrite index_modulus_eq; lia).
  apply (Initialize_aborts_before_allocation Gnu.runtime "svm" "logloss" 3 2 4
           blank initial_world (Hi 3 ltac:(lia)) (Hi 2 ltac:(lia)) (Hi 4 ltac:(lia))).
  left. reflexivity.
Defined.

(** X3. "ffm" with a slot count that does not fit an [index_t]: the buffer
    is allocated with the count reduced modulo 2^32, and the loops, which
    run over the features, the fields and the padded factors themselves,
    store outside it. *)
Theorem ffm_count_wraps_then_out_of_bounds (rt : Runtime) (loss : string)
    (f fd K : Z) (this : Model) (w : World) :
  loss <> ""%string -> 0 < f -> is_index f -> is_index fd -> is_index K ->
  index_modulus <= f * aligned_k K * fd * 2 ->
  Initialize rt "ffm" loss f fd K this w =
  (Err OutOfBounds,
   allocated
     (PosixMemalign kAlignByte
        (to_index (f * aligned_k K * fd * 2) * 4))
     w).
Proof.
  unfold aligned_k.
  intros Hloss Hfeat Hf Hfd HK Hover.
  rewrite Initialize_ffm by (assumption || apply HK). cbv zeta.
  replace (_ <? index_modulus) with false
    by (symmetry; apply Z.ltb_ge; exact Hover).
  reflexivity.
Qed.

Lemma ffm_count_wraps_then_out_of_bounds_witness :
  Initialize Gnu.runtime "ffm" "logloss" 536870912 1 1 blank initial_world =
  (Err OutOfBounds, allocated (PosixMemalign 16 0) initial_world).
Proof.
  assert (Hi : forall z, 0 <= z < 4294967296 -> is_index z)
    by (intros z Hz; unfold is_index; rewrite index_modulus_eq; lia).
  apply (ffm_count_wraps_then_out_of_bounds Gnu.runtime "logloss" 536870912 1 1
           blank initial_world ltac:(discriminate) ltac:(lia)
           (Hi 536870912 ltac:(lia)) (Hi 1 ltac:(lia)) (Hi 1 ltac:(lia))).
  vm_compute. discriminate.
Defined.

(** ** The fresh model *)

(** X4. A fresh model holds the arguments of Initialize; its buffer has
    exactly [param_num_w_] slots and a value has been stored in every one
    of them; one block has been allocated for it, of [param_num_w_] times
    the size of a [real_t], by posix_memalign with the alignment
    [kAlignByte] for "ffm" and by malloc otherwise; the disk is as it
    was. *)
Theorem fresh_model_well_formed (rt : Runtime) (score loss : string)
    (f fd K : Z) (this : Model) (w : World) (m : Model) (w' : World) :
  is_index f -> is_index fd ->
  Initialize rt score loss f fd K this w = (Ok m, w') ->
  score_func_ m = score /\ loss_func_ m = loss /\
  num_feat_ m = f /\ num_field_ m = fd /\ num_K_ m = K /\
  is_index (param_num_w_ m) /\
  length (param_w_ m) = Z.to_nat (param_num_w_ m) /\
  Forall is_Some (param_w_ m) /\
  heap_log w' =
    heap_log w ++
    [if (score =? "ffm")%string
     then PosixMemalign kAlignByte (param_num_w_ m * Z.of_nat sizeof_real_t)
     else Malloc (param_num_w_ m * Z.of_nat sizeof_real_t)] /\
  disk w' = disk w.
Proof.
  intros Hf Hfd H.
  destruct (Initialize_fresh _ _ _ _ _ _ _ _ _ _ Hf Hfd H)
    as (n & values & -> & Hn & Hlen & _ & ->).
  cbn [score_func_ loss_func_ num_feat_ num_field_ num_K_ param_num_w_ param_w_
       model_of].
  do 5 (split; [reflexivity|]).
  split; [exact Hn|].
  split; [rewrite length_map; symmetry; exact Hlen|].
  split.
  - apply Forall_forall. intros s Hs.
    apply list_elem_of_fmap in Hs. destruct Hs as (v & -> & _). eexists. reflexivity.
  - unfold allocated, allocation_of. cbn [heap_log disk].
    destruct (score =? "ffm")%string; split; reflexivity.
Qed.

Lemma fresh_model_well_formed_witness :
  exists m w',
    Initialize Gnu.runtime "ffm" "logloss" 2 2 3 blank initial_world = (Ok m, w') /\
    length (param_w_ m) = 32%nat /\
    Forall is_Some (param_w_ m) /\
    heap_log w' = [PosixMemalign 16 128].
Proof.
  assert (Hi : forall z, 0 <= z < 10 -> is_index z)
    by (intros z Hz; unfold is_index; rewrite index_modulus_eq; lia).
  destruct (Initialize Gnu.runtime "ffm" "logloss" 2 2 3 blank initial_world)
    as [[m|e] w'] eqn:Hinit; [|vm_compute in Hinit; discriminate Hinit].
  destruct (fresh_model_well_formed Gnu.runtime "ffm" "logloss" 2 2 3
              blank initial_world m w' (Hi 2 ltac:(lia)) (Hi 2 ltac:(lia)) Hinit)
    as (_ & _ & _ & _ & _ & _ & Hlen & Hall & Hheap & _).
  exists m, w'. split; [reflexivity|].
  vm_compute in Hinit. injection Hinit as <- <-.
  repeat split; assumption.
Defined.

(** ** The draws of "ffm" *)

Lemma engine_after_add (rt : Runtime) (a b : nat) (g : engine rt) :
  engine_after rt (a + b) g = engine_after rt b (engine_after rt a g).
Proof.
  revert g. induction a as [|a IH]; intros g; [reflexivity|].
  simpl. apply IH.
Qed.

Lemma ffm_weight_engine (rt : Runtime) (K : Z) (coef : real_t) (d : Z)
    (g : engine rt) :
  0 <= d ->
  snd (ffm_weight rt K coef d g) = engine_after rt (drawn K (d + 1) - drawn K d) g.
Proof.
  intros Hd. unfold ffm_weight, drawn.
  destruct (Z.ltb_spec d K) as [Hlt|Hge].
  - replace (Z.to_nat (Z.min K (d + 1)) - Z.to_nat (Z.min K d))%nat with 1%nat by lia.
    simpl. destruct (dis rt g). reflexivity.
  - replace (Z.to_nat (Z.min K (d + 1)) - Z.to_nat (Z.min K d))%nat with 0%nat by lia.
    reflexivity.
Qed.

Lemma ffm_weight_drawn (rt : Runtime) (K : Z) (coef : real_t) (d : Z)
    (g : engine rt) :
  d < K ->
  fst (ffm_weight rt K coef d g) = real_mul rt coef (fst (dis rt g)).
Proof.
  intros Hd. unfold ffm_weight.
  replace (d <? K) with true by (symmetry; apply Z.ltb_lt; exact Hd).
  destruct (dis rt g). reflexivity.
Qed.

Lemma drawn_mono (K d d' : Z) : d <= d' -> (drawn K d <= drawn K d')%nat.
Proof. unfold drawn. lia. Qed.

(** Weight [s] of a chunk, with the generator that reaches it. *)
Lemma ffm_chunk_weight (rt : Runtime) (K : Z) (coef : real_t) (d : Z)
    (g : engine rt) (s : nat) :
  0 <= d -> (s < 4)%nat ->
  fst (ffm_chunk rt K coef d g) !! s =
  Some (Some (fst (ffm_weight rt K coef (d + Z.of_nat s)
                     (engine_after rt (drawn K (d + Z.of_nat s) - drawn K d) g)))).
Proof.
  intros Hd Hs. unfold ffm_chunk.
  pose proof (ffm_weight_engine rt K coef d g Hd) as E0.
  destruct (ffm_weight rt K coef d g) as [x0 g0] eqn:H0.
  pose proof (ffm_weight_engine rt K coef (d + 1) g0 ltac:(lia)) as E1.
  destruct (ffm_weight rt K coef (d + 1) g0) as [x1 g1] eqn:H1.
  pose proof (ffm_weight_engine rt K coef (d + 2) g1 ltac:(lia)) as E2.
  destruct (ffm_weight rt K coef (d + 2) g1) as [x2 g2] eqn:H2.
  destruct (ffm_weight rt K coef (d + 3) g2) as [x3 g3] eqn:H3.
  cbn [snd] in E0, E1, E2.
  replace (d + 1 + 1) with (d + 2) in E1 by lia.
  replace (d + 2 + 1) with (d + 3) in E2 by lia.
  pose proof (drawn_mono K d (d + 1) ltac:(lia)).
  pose proof (drawn_mono K (d + 1) (d + 2) ltac:(lia)).
  pose proof (drawn_mono K (d + 2) (d + 3) ltac:(lia)).
  assert (G1 : engine_after rt (drawn K (d + 1) - drawn K d) g = g0) by congruence.
  assert (G2 : engine_after rt (drawn K (d + 2) - drawn K d) g = g1).
  { replace (drawn K (d + 2) - drawn K d)%nat
      with ((drawn K (d + 1) - drawn K d) + (drawn K (d + 2) - drawn K (d + 1)))%nat
      by lia.
    rewrite engine_after_add, G1. congruence. }
  assert (G3 : engine_after rt (drawn K (d + 3) - drawn K d) g = g2).
  { replace (drawn K (d + 3) - drawn K d)%nat
      with ((drawn K (d + 2) - drawn K d) + (drawn K (d + 3) - drawn K (d + 2)))%nat
      by lia.
    rewrite engine_after_add, G2. congruence. }
  destruct s as [|[|[|[|s]]]]; [| | | |lia]; cbn [fst lookup list_lookup].
  - replace (d + Z.of_nat 0) with d by lia. rewrite Nat.sub_diag. simpl.
    rewrite H0. reflexivity.
  - replace (d + Z.of_nat 1) with (d + 1) by lia. rewrite G1, H1. reflexivity.
  - replace (d + Z.of_nat 2) with (d + 2) by lia. rewrite G2, H2. reflexivity.
  - replace (d + Z.of_nat 3) with (d + 3) by lia. rewrite G3, H3. reflexivity.
Qed.

Lemma ffm_chunk_engine (rt : Runtime) (K : Z) (coef : real_t) (d : Z)
    (g : engine rt) :
  0 <= d ->
  snd (ffm_chunk rt K coef d g) =
  engine_after rt (drawn K (d + kAlign) - drawn K d) g.
Proof.
  intros Hd. unfold ffm_chunk, kAlign.
  pose proof (ffm_weight_engine rt K coef d g Hd) as E0.
  destruct (ffm_weight rt K coef d g) as [x0 g0].
  pose proof (ffm_weight_engine rt K coef (d + 1) g0 ltac:(lia)) as E1.
  destruct (ffm_weight rt K coef (d + 1) g0) as [x1 g1].
  pose proof (ffm_weight_engine rt K coef (d + 2) g1 ltac:(lia)) as E2.
  destruct (ffm_weight rt K coef (d + 2) g1) as [x2 g2].
  pose proof (ffm_weight_engine rt K coef (d + 3) g2 ltac:(lia)) as E3.
  destruct (ffm_weight rt K coef (d + 3) g2) as [x3 g3].
  cbn [snd] in *.
  replace (d + 1 + 1) with (d + 2) in E1 by lia.
  replace (d + 2 + 1) with (d + 3) in E2 by lia.
  replace (d + 3 + 1) with (d + 4) in E3 by lia.
  pose proof (drawn_mono K d (d + 1) ltac:(lia)).
  pose proof (drawn_mono K (d + 1) (d + 2) ltac:(lia)).
  pose proof (drawn_mono K (d + 2) (d + 3) ltac:(lia)).
  pose proof (drawn_mono K (d + 3) (d + 4) ltac:(lia)).
  replace (drawn K (d + 4) - drawn K d)%nat
    with ((drawn K (d + 1) - drawn K d) + ((drawn K (d + 2) - drawn K (d + 1)) +
          ((drawn K (d + 3) - drawn K (d + 2)) + (drawn K (d + 4) - drawn K (d + 3)))))%nat
    by lia.
  rewrite !engine_after_add. congruence.
Qed.

Lemma lay_out_chunks_engine (rt : Runtime) (K : Z) (coef : real_t) (c : nat) :
  forall (d : Z) (g : engine rt),
  0 <= d ->
  snd (lay_out (ffm_chunk rt K coef) kAlign c d g) =
  engine_after rt (drawn K (d + kAlign * Z.of_nat c) - drawn K d) g.
Proof.
  induction c as [|c IH]; intros d g Hd.
  - replace (d + kAlign * Z.of_nat 0) with d by lia.
    rewrite Nat.sub_diag. reflexivity.
  - cbn [lay_out].
    pose proof (ffm_chunk_engine rt K coef d g Hd) as E.
    destruct (ffm_chunk rt K coef d g) as [l g'].
    specialize (IH (d + kAlign) g' ltac:(unfold kAlign; lia)).
    destruct (lay_out (ffm_chunk rt K coef) kAlign c (d + kAlign) g') as [ls g''].
    cbn [snd] in *. rewrite IH, E.
    rewrite <- engine_after_add. f_equal.
    pose proof (drawn_mono K d (d + kAlign) ltac:(unfold kAlign; lia)).
    pose proof (drawn_mono K (d + kAlign) (d + kAlign + kAlign * Z.of_nat c)
                  ltac:(unfold kAlign; lia)).
    replace (d + kAlign * Z.of_nat (S c)) with (d + kAlign + kAlign * Z.of_nat c)
      by lia.
    lia.
Qed.

(** Pieces that each take [c] draws. *)
Lemma lay_out_engine (rt : Runtime) (piece : Z -> engine rt -> list slot * engine rt)
    (step : Z) (c : nat) :
  (forall i g, snd (piece i g) = engine_after rt c g) ->
  forall (n : nat) (i : Z) (g : engine rt),
  snd (lay_out piece step n i g) = engine_after rt (n * c) g.
Proof.
  intros Hpiece. induction n as [|n IH]; intros i g; [reflexivity|].
  cbn [lay_out]. specialize (Hpiece i g).
  destruct (piece i g) as [l g'].
  specialize (IH (i + step) g').
  destruct (lay_out piece step n (i + step) g') as [ls g''].
  cbn [snd] in *. rewrite IH, Hpiece.
  rewrite <- engine_after_add. reflexivity.
Qed.

Lemma ffm_block_engine (rt : Runtime) (K ka : Z) (coef : real_t) (b : Z)
    (g : engine rt) :
  0 <= ka -> ka mod kAlign = 0 ->
  snd (ffm_block rt K ka coef b g) = engine_after rt (drawn K ka) g.
Proof.
  intros Hka Hmod. unfold ffm_block.
  rewrite lay_out_chunks_engine by lia.
  pose proof (Z.div_mod ka kAlign ltac:(discriminate)) as Hdm.
  rewrite Hmod in Hdm.
  assert (0 <= ka / kAlign) by (apply Z.div_pos; [lia|reflexivity]).
  rewrite Z2Nat.id by assumption.
  replace (0 + kAlign * (ka / kAlign)) with ka by lia.
  f_equal. unfold drawn. lia.
Qed.

Lemma ffm_feature_engine (rt : Runtime) (K ka fd : Z) (coef : real_t) (j : Z)
    (g : engine rt) :
  0 <= ka -> ka mod kAlign = 0 ->
  snd (ffm_feature rt K ka fd coef j g) =
  engine_after rt (Z.to_nat fd * drawn K ka) g.
Proof.
  intros Hka Hmod. unfold ffm_feature.
  apply lay_out_engine. intros i g'. apply ffm_block_engine; assumption.
Qed.

(** The weight of feature j, field b and factor position d in the layout
    of "ffm". *)
Lemma ffm_layout_weight (rt : Runtime) (f fd K j b d : Z) :
  is_index K ->
  0 <= j < f -> 0 <= b < fd -> 0 <= d < K ->
  d < to_index (round_up_to_alignment K kAlign) ->
  ffm_layout rt f fd K
    !! Z.to_nat (ffm_weight_index fd (to_index (round_up_to_alignment K kAlign)) j b d) =
  Some (Some (real_mul rt (inv_sqrt rt K)
                (nth_draw rt (Z.to_nat ((j * fd + b) * K + d))))).
Proof.
  intros HK Hj Hb Hd Hdk.
  destruct (padded_index K) as [[Hka0 Hka1] Hkam].
  destruct (padded_or_wrapped K HK) as [Hka|Hka]; [|lia].
  pose proof (round_up_ge K kAlign ltac:(reflexivity)) as HRK.
  set (ka := to_index (round_up_to_alignment K kAlign)) in *.
  assert (HKka : K <= ka) by lia.
  pose proof (Z.div_mod ka kAlign ltac:(discriminate)) as Hdm.
  rewrite Hkam in Hdm.
  pose proof (Z.div_mod d kAlign ltac:(discriminate)) as Hdd.
  pose proof (Z.mod_pos_bound d kAlign ltac:(reflexivity)) as Hs.
  assert (Hc0 : 0 <= d / kAlign) by (apply Z.div_pos; [lia|reflexivity]).
  assert (Hc : d / kAlign < ka / kAlign)
    by (apply Z.div_lt_upper_bound; [reflexivity|lia]).
  rewrite ffm_index_nat by lia.
  unfold ffm_layout. fold ka.
  assert (Hblock : (Z.to_nat (d / kAlign) * 8 + Z.to_nat (d mod kAlign)
                    < block_slots ka)%nat)
    by (unfold block_slots, kAlign in *; lia).
  assert (Hfeature : (Z.to_nat b * block_slots ka +
                      (Z.to_nat (d / kAlign) * 8 + Z.to_nat (d mod kAlign))
                      < feature_slots fd ka)%nat)
    by (unfold feature_slots; nia).
  rewrite (lay_out_lookup _ 1 (feature_slots fd ka))
    by (try apply ffm_feature_length; (assumption || lia)).
  unfold ffm_feature at 1.
  rewrite (lay_out_lookup _ 1 (block_slots ka))
    by (try apply ffm_block_length; (assumption || lia)).
  unfold ffm_block at 1.
  rewrite (lay_out_lookup _ kAlign 8%nat)
    by (try apply ffm_chunk_length; unfold kAlign in *; lia).
  rewrite ffm_chunk_weight by (unfold kAlign in *; lia).
  rewrite lay_out_chunks_engine by lia.
  rewrite (lay_out_engine rt _ 1 (drawn K ka))
    by (intros; apply ffm_block_engine; assumption).
  rewrite (lay_out_engine rt _ 1 (Z.to_nat fd * drawn K ka))
    by (intros; apply ffm_feature_engine; assumption).
  rewrite <- !engine_after_add.
  rewrite ffm_weight_drawn by (unfold kAlign in *; lia).
  unfold nth_draw. do 5 f_equal.
  unfold drawn.
  rewrite !Z2Nat.id by lia.
  rewrite (Z.min_l K ka) by lia.
  rewrite (Z.min_r K 0) by lia.
  rewrite (Z.min_r K (0 + kAlign * (d / kAlign))) by lia.
  rewrite (Z.min_r K (0 + kAlign * (d / kAlign) + d mod kAlign)) by lia.
  replace (0 + kAlign * (d / kAlign) + d mod kAlign) with d by lia.
  replace (Z.to_nat (0 + kAlign * (d / kAlign)) - Z.to_nat 0 +
           (Z.to_nat d - Z.to_nat (0 + kAlign * (d / kAlign))))%nat
    with (Z.to_nat d) by lia.
  f_equal. apply Nat2Z.inj.
  rewrite !Nat2Z.inj_add, !Nat2Z.inj_mul.
  assert (0 <= j * fd) by (apply Z.mul_nonneg_nonneg; lia).
  assert (0 <= (j * fd + b) * K) by (apply Z.mul_nonneg_nonneg; lia).
  rewrite !Z2Nat.id by lia. ring.
Qed.


(** X5. In a built "ffm" store the weight of feature j, field b and factor
    position d below the factor count is the scaled draw number
    (j x num_field + b) x num_K + d of the default-constructed generator:
    the draws go to the true factor positions in the order of the loops,
    and the padding takes none. *)
Theorem ffm_weights_are_consecutive_draws (rt : Runtime) (loss : string)
    (f fd K : Z) (this : Model) (w : World) (m : Model) (w' : World) (j b d : Z) :
  is_index f -> is_index fd -> is_index K ->
  Initialize rt "ffm" loss f fd K this w = (Ok m, w') ->
  0 <= j < f -> 0 <= b < fd -> 0 <= d < K -> d < get_aligned_k m ->
  param_w_ m !! Z.to_nat (ffm_weight_index fd (get_aligned_k m) j b d) =
  Some (Some (real_mul rt (inv_sqrt rt K)
                (nth_draw rt (Z.to_nat ((j * fd + b) * K + d))))).
Proof.
  intros Hf Hfd HK Hm Hj Hb Hd.
  rewrite (Initialize_ffm_built _ _ _ _ _ _ _ _ _ Hf Hfd Hm).
  unfold get_aligned_k. cbn [param_num_w_ param_w_ num_K_ model_of].
  intros Hdk. apply ffm_layout_weight; assumption.
Qed.

Lemma ffm_weights_are_consecutive_draws_witness :
  exists m w',
    Initialize Gnu.runtime "ffm" "logloss" 2 2 3 blank initial_world = (Ok m, w') /\
    param_w_ m !! Z.to_nat (ffm_weight_index 2 4 1 1 2) =
      Some (Some (real_mul Gnu.runtime (inv_sqrt Gnu.runtime 3)
                    (nth_draw Gnu.runtime 11))).
Proof.
  assert (Hi : forall z, 0 <= z < 10 -> is_index z)
    by (intros z Hz; unfold is_index; rewrite index_modulus_eq; lia).
  destruct (Initialize Gnu.runtime "ffm" "logloss" 2 2 3 blank initial_world)
    as [[m|e] w'] eqn:Hinit; [|vm_compute in Hinit; discriminate Hinit].
  exists m, w'. split; [reflexivity|].
  assert (Hka : get_aligned_k m = 4)
    by (vm_compute in Hinit; injection Hinit as <- _; reflexivity).
  pose proof (ffm_weights_are_consecutive_draws Gnu.runtime "logloss" 2 2 3
                blank initial_world m w' 1 1 2
                (Hi 2 ltac:(lia)) (Hi 2 ltac:(lia)) (Hi 3 ltac:(lia)) Hinit
                ltac:(lia) ltac:(lia) ltac:(lia) ltac:(rewrite Hka; lia)) as H.
  rewrite Hka in H. exact H.
Defined.

(** ** Saving and loading *)

Lemma Serialize_checkpoint_of (filename : string) (m : Model)
    (values : list real_t) (w : World) :
  filename <> ""%string -> holds_values m values ->
  Serialize filename m w = (Ok tt, written filename (checkpoint_of m values) w).
Proof.
  intros Hname [Hbuf Hlen]. apply Serialize_spec; assumption.
Qed.

Lemma Deserialize_checkpoint_of (rt : Runtime) (filename : string)
    (this m : Model) (values : list real_t) (w : World) :
  filename <> ""%string -> loadable m -> holds_values m values ->
  disk w !! filename = Some (checkpoint_of m values) ->
  Deserialize rt filename this w =
  (Ok (true, m), allocated (allocation_of (score_func_ m) (param_num_w_ m)) w).
Proof.
  intros Hname (Hknown & Hloss & Hf & Hfd & HK & Hn) [Hbuf Hlen] Hfile.
  destruct m as [score loss f fd K n buf]. cbn in *. subst buf.
  unfold checkpoint_of in Hfile. cbn in Hfile.
  rewrite (Deserialize_spec rt filename this w score loss f fd K n values []);
    try assumption.
  - rewrite Hknown. reflexivity.
  - apply known_score_short. exact Hknown.
  - intros _. exact Hlen.
  - rewrite app_nil_r. exact Hfile.
Qed.

Lemma label_bytes_length (str : string) :
  length (label_bytes str) = (8 + String.length str)%nat.
Proof.
  unfold label_bytes, size_t_bytes. rewrite length_app, length_le_split.
  unfold sizeof_size_t. f_equal.
  induction str as [|a str IH]; [reflexivity|].
  unfold list_byte_of_string in *. simpl. f_equal. exact IH.
Qed.

(** X6. Serialize of a model whose buffer is filled writes, in this order,
    the score and the loss label (each behind its length), the feature,
    field and factor counts, the slot count and the values of the slots:
    32 bytes, the two labels and four bytes for each slot. What the file
    held before is gone; the other files and the heap are as they were. *)
Theorem Serialize_writes_checkpoint (filename : string) (m : Model)
    (values : list real_t) (w : World) :
  filename <> ""%string -> holds_values m values ->
  exists w' bytes,
    Serialize filename m w = (Ok tt, w') /\
    disk w' !! filename = Some bytes /\
    bytes = label_bytes (score_func_ m) ++ label_bytes (loss_func_ m) ++
            index_t_bytes (num_feat_ m) ++ index_t_bytes (num_field_ m) ++
            index_t_bytes (num_K_ m) ++ index_t_bytes (param_num_w_ m) ++
            values_bytes values /\
    length bytes =
      (32 + String.length (score_func_ m) + String.length (loss_func_ m) +
       4 * Z.to_nat (param_num_w_ m))%nat /\
    (forall other, other <> filename -> disk w' !! other = disk w !! other) /\
    heap_log w' = heap_log w.
Proof.
  intros Hname Hvalues.
  rewrite (Serialize_checkpoint_of filename m values w Hname Hvalues).
  eexists. eexists. split; [reflexivity|].
  split; [apply disk_written|].
  split; [|split; [|split]].
  - unfold checkpoint_of, checkpoint_bytes, header_bytes.
    rewrite <- !app_assoc. reflexivity.
  - unfold checkpoint_of, checkpoint_bytes, header_bytes.
    rewrite !length_app, !label_bytes_length, !index_t_bytes_length,
      values_bytes_length.
    destruct Hvalues as [_ ->]. unfold sizeof_index_t, sizeof_real_t. lia.
  - intros other Hother. unfold written. cbn [disk].
    apply lookup_insert_ne. congruence.
  - reflexivity.
Qed.

Lemma Serialize_writes_checkpoint_witness :
  exists w',
    Serialize "model.bin" (model_of "linear" "logloss" 1 0 0 2
                             [Some real_zero; Some real_one])
      (written "model.bin" [Byte.x2a] initial_world) = (Ok tt, w') /\
    length <$> (disk w' !! "model.bin"%string) = Some 53%nat.
Proof.
  destruct (Serialize_writes_checkpoint "model.bin"
              (model_of "linear" "logloss" 1 0 0 2 [Some real_zero; Some real_one])
              [real_zero; real_one] (written "model.bin" [Byte.x2a] initial_world)
              ltac:(discriminate) ltac:(split; reflexivity))
    as (w' & bytes & Hsave & Hfile & _ & Hlen & _).
  exists w'. split; [exact Hsave|]. rewrite Hfile. cbn. rewrite Hlen. reflexivity.
Defined.

(** X7. A checkpoint that is loaded and saved again is written back byte
    for byte, be its stored slot count the one of its dimensions or not. *)
Theorem save_of_load_is_identity (rt : Runtime) (filename copy : string)
    (this : Model) (w : World) (score loss : string) (f fd K n : Z)
    (values : list real_t) :
  filename <> ""%string -> copy <> ""%string ->
  known_score score = true -> short_label loss ->
  is_index f -> is_index fd -> is_index K -> is_index n ->
  Z.to_nat n = length values ->
  disk w !! filename = Some (checkpoint_bytes score loss f fd K n values) ->
  exists m w1 w2,
    Deserialize rt filename this w = (Ok (true, m), w1) /\
    Serialize copy m w1 = (Ok tt, w2) /\
    disk w2 !! copy = Some (checkpoint_bytes score loss f fd K n values).
Proof.
  intros Hname Hcopy Hknown Hloss Hf Hfd HK Hn Hlen Hfile.
  rewrite (Deserialize_spec rt filename this w score loss f fd K n values []);
    try assumption.
  - rewrite Hknown.
    eexists. eexists. eexists. split; [reflexivity|].
    rewrite (Serialize_spec copy _ values) by (assumption || reflexivity).
    split; [reflexivity|]. apply disk_written.
  - apply known_score_short. exact Hknown.
  - intros _. exact Hlen.
  - rewrite app_nil_r. exact Hfile.
Qed.

Lemma save_of_load_is_identity_witness :
  exists m w1 w2,
    Deserialize Gnu.runtime "model.bin" blank
      (written "model.bin"
         (checkpoint_bytes "linear" "logloss" 3 0 0 2 [real_zero; real_one])
         initial_world) = (Ok (true, m), w1) /\
    Serialize "copy.bin" m w1 = (Ok tt, w2) /\
    disk w2 !! "copy.bin"%string =
      Some (checkpoint_bytes "linear" "logloss" 3 0 0 2 [real_zero; real_one]).
Proof.
  assert (Hi : forall z, 0 <= z < 10 -> is_index z)
    by (intros z Hz; unfold is_index; rewrite index_modulus_eq; lia).
  apply (save_of_load_is_identity Gnu.runtime "model.bin" "copy.bin" blank _
           "linear" "logloss" 3 0 0 2 [real_zero; real_one]);
    try discriminate; try reflexivity; try (apply Hi; lia).
Defined.

(** X9. The constructor from a file gives back the fresh model that was
    saved to the file. *)
Theorem Model_from_saved_file (rt : Runtime) (score loss : string)
    (f fd K : Z) (this : Model) (w : World) (m : Model) (w1 : World)
    (filename : string) (this' : Model) :
  is_index f -> is_index fd -> is_index K ->
  short_label loss -> filename <> ""%string ->
  Initialize rt score loss f fd K this w = (Ok m, w1) ->
  exists w2 w3,
    Serialize filename m w1 = (Ok tt, w2) /\
    Model_from_file rt filename this' w2 = (Ok m, w3).
Proof.
  intros Hf Hfd HK Hloss Hname Hinit.
  destruct (Initialize_inv _ _ _ _ _ _ _ _ _ _ Hinit) as (_ & _ & _ & _ & _ & Hknown).
  destruct (Initialize_fresh _ _ _ _ _ _ _ _ _ _ Hf Hfd Hinit)
    as (n & values & -> & Hn & Hlen & _ & _).
  assert (Hv : holds_values (model_of score loss f fd K n (map Some values)) values)
    by (split; [reflexivity|exact Hlen]).
  rewrite (Serialize_checkpoint_of filename _ values w1 Hname Hv).
  do 2 eexists. split; [reflexivity|].
  unfold Model_from_file, CHECK.
  rewrite (nonempty_eqb _ Hname). cbn [negb].
  unfold bind at 1. cbn [ret]. unfold bind at 1.
  rewrite (Deserialize_checkpoint_of rt filename this'
             (model_of score loss f fd K n (map Some values)) values);
    try assumption.
  - reflexivity.
  - repeat split; assumption || apply Hf || apply Hfd || apply HK || apply Hn.
  - apply disk_written.
Qed.

Lemma Model_from_saved_file_witness :
  exists m w1 w2 w3,
    Initialize Gnu.runtime "fm" "logloss" 2 0 4 blank initial_world = (Ok m, w1) /\
    Serialize "model.bin" m w1 = (Ok tt, w2) /\
    Model_from_file Gnu.runtime "model.bin" blank w2 = (Ok m, w3).
Proof.
  assert (Hi : forall z, 0 <= z < 10 -> is_index z)
    by (intros z Hz; unfold is_index; rewrite index_modulus_eq; lia).
  destruct (Initialize Gnu.runtime "fm" "logloss" 2 0 4 blank initial_world)
    as [[m|e] w1] eqn:Hinit; [|vm_compute in Hinit; discriminate Hinit].
  destruct (Model_from_saved_file Gnu.runtime "fm" "logloss" 2 0 4
              blank initial_world m w1 "model.bin" blank
              (Hi 2 ltac:(lia)) (Hi 0 ltac:(lia)) (Hi 4 ltac:(lia))
              ltac:(reflexivity) ltac:(discriminate) Hinit)
    as (w2 & w3 & Hsave & Hload).
  exists m, w1, w2, w3. repeat split; assumption.
Defined.

(** X10. Two models that a checkpoint can carry and whose checkpoints are
    the same bytes are the same model. *)
Theorem checkpoint_determines_model (m1 m2 : Model) (values1 values2 : list real_t) :
  loadable m1 -> loadable m2 ->
  holds_values m1 values1 -> holds_values m2 values2 ->
  checkpoint_of m1 values1 = checkpoint_of m2 values2 ->
  m1 = m2.
Proof.
  intros Hl1 Hl2 Hv1 Hv2 Hbytes.
  pose (w := written "f" (checkpoint_of m1 values1) initial_world).
  pose proof (Deserialize_checkpoint_of Gnu.runtime "f" blank m1 values1 w
                ltac:(discriminate) Hl1 Hv1 (disk_written _ _ _)) as H1.
  assert (Hfile : disk w !! "f"%string = Some (checkpoint_of m2 values2))
    by (rewrite <- Hbytes; apply disk_written).
  pose proof (Deserialize_checkpoint_of Gnu.runtime "f" blank m2 values2 w
                ltac:(discriminate) Hl2 Hv2 Hfile) as H2.
  rewrite H1 in H2. congruence.
Qed.

Lemma checkpoint_determines_model_witness :
  model_of "linear" "logloss" 1 0 0 2 [Some real_zero; Some real_one] =
  model_of "linear" "logloss" 1 0 0 2 (map Some [real_zero; real_one]).
Proof.
  assert (Hi : forall z, 0 <= z < 10 -> is_index z)
    by (intros z Hz; unfold is_index; rewrite index_modulus_eq; lia).
  assert (Hl : loadable (model_of "linear" "logloss" 1 0 0 2
                           [Some real_zero; Some real_one]))
    by (repeat split; try reflexivity; apply Hi; cbn; lia).
  apply (checkpoint_determines_model _ _ [real_zero; real_one] [real_zero; real_one]
           Hl Hl); try (split; reflexivity).
Defined.

(** Two continuations that agree on what the first step returns. *)
Lemma bind_agree {A B : Type} (x : M A) (f g : A -> M B) (w : World) :
  (forall a w', x w = (Ok a, w') -> f a w' = g a w') ->
  bind x f w = bind x g w.
Proof.
  intros H. unfold bind. destruct (x w) as [[a|e] w'] eqn:Hx; [|reflexivity].
  apply H. reflexivity.
Qed.

Lemma deserialize_w_frame (rt rt' : Runtime) (file : FILE) (score loss : string)
    (f fd K n n' : Z) (old old' : buffer) (w : World) :
  deserialize_w rt file (model_of score loss f fd K n old) w =
  deserialize_w rt' file (model_of score loss f fd K n' old') w.
Proof.
  unfold deserialize_w. apply bind_agree. intros [count file1] w1 _.
  unfold bind at 1 3. rewrite !Initialize_w_unset.
  unfold with_param_num_w_, with_param_w_, model_of.
  cbn [score_func_ loss_func_ num_feat_ num_field_ num_K_ param_num_w_ param_w_].
  destruct (known_score score); reflexivity.
Qed.

(** X11. A load takes nothing from the random generator and nothing from
    what the object held before: whatever the file, the outcome of
    Deserialize is the same for any two runtimes and any two objects. *)
Theorem load_depends_on_file_only (rt rt' : Runtime) (filename : string)
    (this this' : Model) (w : World) :
  Deserialize rt filename this w = Deserialize rt' filename this' w.
Proof.
  unfold Deserialize.
  apply bind_agree. intros _ w0 _.
  apply bind_agree. intros file w1 Hopen.
  unfold OpenFileOrDie in Hopen. cbn [String.eqb Ascii.eqb Bool.eqb] in Hopen.
  destruct (disk w0 !! filename); [|discriminate Hopen].
  injection Hopen as <- <-.
  apply bind_agree. intros [score file1] w2 _.
  apply bind_agree. intros [loss file2] w3 _.
  apply bind_agree. intros [f file3] w4 _.
  apply bind_agree. intros [fd file4] w5 _.
  apply bind_agree. intros [K file5] w6 _.
  unfold bind at 1 3.
  pose proof (deserialize_w_frame rt rt' file5 score loss f fd K
                (param_num_w_ this) (param_num_w_ this')
                (param_w_ this) (param_w_ this') w6) as Hframe.
  unfold model_of in Hframe. rewrite Hframe. reflexivity.
Qed.

(** ** Edge cases and the variants against each other *)

Lemma ffm_layout_no_fields (rt : Runtime) (f K : Z) : ffm_layout rt f 0 K = [].
Proof.
  apply nil_length_inv. rewrite ffm_layout_length.
  unfold ffm_slots, feature_slots. simpl Z.to_nat. lia.
Qed.

(** X12. "ffm" with no field is accepted ([CHECK_GE(num_field, 0)] lets 0
    pass): whatever the feature and factor counts, the store is built with
    slot count 0 and an empty buffer, and posix_memalign is asked for 0
    bytes. *)
Theorem ffm_without_fields_is_empty (rt : Runtime) (loss : string) (f K : Z)
    (this : Model) (w : World) :
  loss <> ""%string -> 0 < f -> is_index f -> is_index K ->
  Initialize rt "ffm" loss f 0 K this w =
  (Ok (model_of "ffm" loss f 0 K 0 []),
   allocated (PosixMemalign kAlignByte 0) w).
Proof.
  intros Hloss Hfeat Hf HK.
  rewrite Initialize_ffm
    by (assumption || apply HK || (unfold is_index; rewrite index_modulus_eq; lia)).
  cbv zeta. rewrite Z.mul_0_r, Z.mul_0_l.
  rewrite ffm_layout_no_fields. reflexivity.
Qed.

Lemma ffm_without_fields_is_empty_witness :
  Initialize Gnu.runtime "ffm" "logloss" 5 0 3 blank initial_world =
  (Ok (model_of "ffm" "logloss" 5 0 3 0 []),
   allocated (PosixMemalign 16 0) initial_world).
Proof.
  assert (Hi : forall z, 0 <= z < 10 -> is_index z)
    by (intros z Hz; unfold is_index; rewrite index_modulus_eq; lia).
  apply (ffm_without_fields_is_empty Gnu.runtime "logloss" 5 3 blank initial_world
           ltac:(discriminate) ltac:(lia) (Hi 5 ltac:(lia)) (Hi 3 ltac:(lia))).
Defined.

(** X13. With one field, a built "ffm" store holds the very weights of
    the "fm" store of the same feature and factor counts: the weight of
    feature j and factor position d is, in both, the scaled draw number
    j x num_K + d; "fm" keeps it in slot 2 (j x num_K + d), "ffm" in the
    chunk of its factor position. *)
Theorem ffm_with_one_field_has_fm_weights (rt : Runtime) (loss loss' : string)
    (f K : Z) (this this' : Model) (w w' : World) (m_ffm m_fm : Model)
    (w1 w1' : World) (j d : Z) :
  is_index f -> is_index K ->
  Initialize rt "ffm" loss f 1 K this w = (Ok m_ffm, w1) ->
  Initialize rt "fm" loss' f 1 K this' w' = (Ok m_fm, w1') ->
  0 <= j < f -> 0 <= d < K -> d < get_aligned_k m_ffm ->
  2 * (j * K + d) + 1 < param_num_w_ m_fm /\
  param_w_ m_ffm !! Z.to_nat (ffm_weight_index 1 (get_aligned_k m_ffm) j 0 d) =
  param_w_ m_fm !! Z.to_nat (2 * (j * K + d)).
Proof.
  intros Hf HK Hffm Hfm Hj Hd.
  assert (H1 : is_index 1) by (unfold is_index; rewrite index_modulus_eq; lia).
  destruct (Initialize_inv _ _ _ _ _ _ _ _ _ _ Hfm) as (_ & Hloss' & Hfeat & _ & _ & _).
  pose proof Hffm as Hbuilt.
  rewrite Initialize_ffm in Hbuilt
    by (destruct (Initialize_inv _ _ _ _ _ _ _ _ _ _ Hffm) as (_ & ? & _);
        assumption || apply HK).
  cbv zeta in Hbuilt.
  destruct (Z.ltb_spec (f * to_index (round_up_to_alignment K kAlign) * 1 * 2)
              index_modulus) as [Hfit|_]; [|discriminate Hbuilt].
  injection Hbuilt as <- _.
  rewrite Initialize_fm in Hfm by (assumption || apply HK || lia).
  injection Hfm as <- _.
  unfold get_aligned_k. cbn [param_num_w_ param_w_ num_K_ model_of].
  intros Hdk.
  destruct (padded_or_wrapped K HK) as [Hka|Hka]; [|lia].
  pose proof (round_up_ge K kAlign ltac:(reflexivity)) as HRK.
  assert (Hcount : index_mul (index_mul f K) 2 = f * K * 2).
  { unfold index_mul. rewrite to_index_mul_l. apply to_index_small.
    split; [nia|]. nia. }
  assert (Hidx : 2 * (j * K + d) + 1 < f * K * 2) by nia.
  rewrite Hcount. split; [exact Hidx|].
  rewrite ffm_layout_weight by (assumption || lia).
  destruct (fm_layout_pair rt K (f * K * 2) (j * K + d) ltac:(nia) Hidx) as [Hw _].
  rewrite Hw. do 4 f_equal. lia.
Qed.

Lemma ffm_with_one_field_has_fm_weights_witness :
  exists m_ffm m_fm w1 w1',
    Initialize Gnu.runtime "ffm" "logloss" 2 1 3 blank initial_world
      = (Ok m_ffm, w1) /\
    Initialize Gnu.runtime "fm" "logloss" 2 1 3 blank initial_world
      = (Ok m_fm, w1') /\
    param_w_ m_ffm !! Z.to_nat (ffm_weight_index 1 4 1 0 2) =
    param_w_ m_fm !! Z.to_nat (2 * (1 * 3 + 2)).
Proof.
  assert (Hi : forall z, 0 <= z < 10 -> is_index z)
    by (intros z Hz; unfold is_index; rewrite index_modulus_eq; lia).
  destruct (Initialize Gnu.runtime "ffm" "logloss" 2 1 3 blank initial_world)
    as [[m_ffm|e] w1] eqn:Hffm; [|vm_compute in Hffm; discriminate Hffm].
  destruct (Initialize Gnu.runtime "fm" "logloss" 2 1 3 blank initial_world)
    as [[m_fm|e] w1'] eqn:Hfm; [|vm_compute in Hfm; discriminate Hfm].
  exists m_ffm, m_fm, w1, w1'. split; [reflexivity|]. split; [reflexivity|].
  assert (Hka : get_aligned_k m_ffm = 4)
    by (vm_compute in Hffm; injection Hffm as <- _; reflexivity).
  destruct (ffm_with_one_field_has_fm_weights Gnu.runtime "logloss" "logloss"
              2 3 blank blank initial_world initial_world m_ffm m_fm w1 w1' 1 2
              (Hi 2 ltac:(lia)) (Hi 3 ltac:(lia)) Hffm Hfm
              ltac:(lia) ltac:(lia) ltac:(rewrite Hka; lia)) as [_ H].
  rewrite Hka in H. exact H.
Defined.
